(** * import-module-schematic: a shallow embedding of [index.ts]

  The schematic reads one TypeScript file from the schematic [Tree],
  parses it, and records at most two text insertions: an import
  statement and a new entry of the [imports] array of the [NgModule]
  decorator.  The TypeScript compiler API and the devkit [Tree] are
  libraries the schematic calls; the parts of them that the schematic
  touches are modelled in the first two modules, the schematic itself
  in [Schematic]. *)

From Stdlib Require Import String Ascii List Bool.
From stdpp Require Import gmap strings.

Local Open Scope string_scope.

(** ** The TypeScript syntax tree, as far as the schematic inspects it *)
Module Ts.

(** Offsets of a node in the text of its source file: what
    [node.getStart(sourceFile)] (leading trivia skipped) and
    [node.getEnd()] return. *)
Record Span := { getStart : nat; getEnd : nat }.

Scheme All for list.
Scheme All for option.

(** One constructor for each node kind the schematic tests for, with the
    properties it reads, and [OtherNode] for every other kind.  The
    child lists are in the order [ts.forEachChild] visits them; tokens
    without children (question marks, the end-of-file token) are left
    out. *)
Inductive Node : Type :=
| Identifier (sp : Span) (text : string)
| CallExpression (sp : Span) (expression : Node)
    (typeArguments arguments : list Node)
| ObjectLiteralExpression (sp : Span) (properties : list Node)
| PropertyAssignment (sp : Span) (modifiers : list Node)
    (name initializer : Node)
| ArrayLiteralExpression (sp : Span) (elements : list Node)
| Decorator (sp : Span) (expression : Node)
| ClassDeclaration (sp : Span) (modifiers : list Node) (name : option Node)
    (typeParameters heritageClauses members : list Node)
| ImportDeclaration (sp : Span) (modifiers : list Node)
    (importClause : option Node) (moduleSpecifier : Node)
    (attributes : option Node)
| ImportClause (sp : Span) (name namedBindings : option Node)
| OtherNode (sp : Span) (kind : string) (children : list Node).

Record SourceFile := { text : string; statements : list Node }.

Definition span (node : Node) : Span :=
  match node with
  | Identifier sp _ | CallExpression sp _ _ _
  | ObjectLiteralExpression sp _ | PropertyAssignment sp _ _ _
  | ArrayLiteralExpression sp _ | Decorator sp _
  | ClassDeclaration sp _ _ _ _ _ | ImportDeclaration sp _ _ _ _
  | ImportClause sp _ _ | OtherNode sp _ _ => sp
  end.

(** [String.prototype.substring(a, b)]: the arguments are swapped when
    [a > b] and clamped to the length of the string. *)
Definition js_substring (a b : nat) (s : string) : string :=
  substring (Nat.min a b) (Nat.max a b - Nat.min a b) s.

(** [node.getText(sourceFile)] *)
Definition getText (node : Node) (sourceFile : SourceFile) : string :=
  js_substring (getStart (span node)) (getEnd (span node)) (text sourceFile).

(** The type guards [ts.isXxx(node)] compare [node.kind]. *)
Definition isIdentifier (node : Node) : bool :=
  match node with Identifier _ _ => true | _ => false end.
Definition isCallExpression (node : Node) : bool :=
  match node with CallExpression _ _ _ _ => true | _ => false end.
Definition isObjectLiteralExpression (node : Node) : bool :=
  match node with ObjectLiteralExpression _ _ => true | _ => false end.
Definition isPropertyAssignment (node : Node) : bool :=
  match node with PropertyAssignment _ _ _ _ => true | _ => false end.
Definition isArrayLiteralExpression (node : Node) : bool :=
  match node with ArrayLiteralExpression _ _ => true | _ => false end.
Definition isDecorator (node : Node) : bool :=
  match node with Decorator _ _ => true | _ => false end.
Definition isClassDeclaration (node : Node) : bool :=
  match node with ClassDeclaration _ _ _ _ _ _ => true | _ => false end.
Definition isImportDeclaration (node : Node) : bool :=
  match node with ImportDeclaration _ _ _ _ _ => true | _ => false end.

(** [ts.getDecorators(node)]: the decorators among the modifiers of a
    node that can have them; the caller's [|| []] turns the missing
    result into the empty list. *)
Definition getDecorators (node : Node) : list Node :=
  match node with
  | ClassDeclaration _ modifiers _ _ _ _ => List.filter isDecorator modifiers
  | _ => []
  end.

(** The children of a node, in [ts.forEachChild] order. *)
Definition opt_list (o : option Node) : list Node :=
  match o with Some n => [n] | None => [] end.

Definition childrenOf (node : Node) : list Node :=
  match node with
  | Identifier _ _ => []
  | CallExpression _ e tas args => e :: tas ++ args
  | ObjectLiteralExpression _ props => props
  | PropertyAssignment _ mods n i => mods ++ [n; i]
  | ArrayLiteralExpression _ els => els
  | Decorator _ e => [e]
  | ClassDeclaration _ mods n tps hcs mems =>
      mods ++ opt_list n ++ tps ++ hcs ++ mems
  | ImportDeclaration _ mods ic ms attrs =>
      mods ++ opt_list ic ++ [ms] ++ opt_list attrs
  | ImportClause _ n nb => opt_list n ++ opt_list nb
  | OtherNode _ _ cs => cs
  end.

End Ts.

(** ** The schematic's host: exceptions, the [Tree] and its update recorder *)
Module Host.

(** What a call can throw.  [SchematicsException] is the schematic's
    own; the next two are the devkit's, raised by [beginUpdate] and
    [commitUpdate] on a path that is not in the tree; [TypeError] is
    the JavaScript runtime's, raised when a property of [undefined] is
    read. *)
Inductive Exception : Type :=
| SchematicsException (message : string)
| FileDoesNotExistException (path : string)
| ContentHasMutatedException (path : string)
| TypeError.

Inductive Result (A : Type) : Type :=
| Ok (a : A)
| Throw (e : Exception).
Arguments Ok {A} a.
Arguments Throw {A} e.

(** The calls the schematic makes on its collaborators, in the order it
    makes them. *)
Inductive Event : Type :=
| EvRead (path : string)
| EvCreateSourceFile (fileName sourceText : string)
| EvBeginUpdate (path : string)
| EvInsertLeft (index : nat) (content : string)
| EvInsertRight (index : nat) (content : string)
| EvCommitUpdate (path : string).

(** The tree maps a path to the content of the file, taken as the string
    [toString('utf-8')] gives; the world is the tree together with the
    calls made so far. *)
Record World := { files : gmap string string; events : list Event }.

Definition initial (tree : gmap string string) : World :=
  {| files := tree; events := [] |}.

Definition M (A : Type) : Type := World -> Result A * World.

Definition ret {A} (a : A) : M A := fun w => (Ok a, w).
Definition throw {A} (e : Exception) : M A := fun w => (Throw e, w).
Definition bind {A B} (m : M A) (k : A -> M B) : M B :=
  fun w =>
    match m w with
    | (Ok a, w') => k a w'
    | (Throw e, w') => (Throw e, w')
    end.
Definition lift {A} (r : Result A) : M A := fun w => (r, w).
Definition emit (e : Event) : M unit :=
  fun w => (Ok tt, {| files := files w; events := events w ++ [e] |}).

(** The recorder of one update: the path and the insertions made, in
    call order. *)
Inductive Edit : Type :=
| InsertLeft (index : nat) (content : string)
| InsertRight (index : nat) (content : string).

Record UpdateRecorder := { path : string; edits : list Edit }.

Declare Scope host_scope.
Delimit Scope host_scope with host.
Notation "x <- m ;; k" := (bind m (fun x => k))
  (at level 100, m at next level, right associativity) : host_scope.
Notation "m ;;; k" := (bind m (fun _ => k))
  (at level 100, right associativity) : host_scope.
Local Open Scope host_scope.

(** [tree.read(path)]: the content, or [null] for a path not in the
    tree.  Paths are paths of files: what the devkit does with the path
    of a directory is not modelled. *)
Definition read (p : string) : M (option string) :=
  emit (EvRead p) ;;;
  fun w => (Ok (files w !! p), w).

(** [tree.beginUpdate(path)] *)
Definition beginUpdate (p : string) : M UpdateRecorder :=
  emit (EvBeginUpdate p) ;;;
  fun w =>
    match files w !! p with
    | Some _ => (Ok {| path := p; edits := [] |}, w)
    | None => (Throw (FileDoesNotExistException p), w)
    end.

(** [recorder.insertLeft(index, content)] and
    [recorder.insertRight(index, content)] *)
Definition insertLeft (r : UpdateRecorder) (index : nat) (content : string)
  : M UpdateRecorder :=
  emit (EvInsertLeft index content) ;;;
  ret {| path := path r; edits := edits r ++ [InsertLeft index content] |}.

Definition insertRight (r : UpdateRecorder) (index : nat) (content : string)
  : M UpdateRecorder :=
  emit (EvInsertRight index content) ;;;
  ret {| path := path r; edits := edits r ++ [InsertRight index content] |}.

(** The text a list of insertions puts in front of offset [i] of the
    original content: what was inserted left of [i], then what was
    inserted right of it, each in call order. *)
Fixpoint leftAt (i : nat) (es : list Edit) : string :=
  match es with
  | [] => ""
  | InsertLeft j c :: es' =>
      if Nat.eqb j i then c +:+ leftAt i es' else leftAt i es'
  | InsertRight _ _ :: es' => leftAt i es'
  end.

Fixpoint rightAt (i : nat) (es : list Edit) : string :=
  match es with
  | [] => ""
  | InsertRight j c :: es' =>
      if Nat.eqb j i then c +:+ rightAt i es' else rightAt i es'
  | InsertLeft _ _ :: es' => rightAt i es'
  end.

(** The content after the insertions.  All offsets refer to the
    original content; an offset beyond its end, which no node of a
    parse of that content has, inserts nothing. *)
Fixpoint applyFrom (i : nat) (es : list Edit) (content : string) : string :=
  leftAt i es +:+ rightAt i es +:+
  match content with
  | EmptyString => EmptyString
  | String c rest => String c (applyFrom (S i) es rest)
  end.

Definition apply (es : list Edit) (content : string) : string :=
  applyFrom 0 es content.

(** [tree.commitUpdate(recorder)]: the file is overwritten when the
    insertions change its content. *)
Definition commitUpdate (r : UpdateRecorder) : M unit :=
  emit (EvCommitUpdate (path r)) ;;;
  fun w =>
    match files w !! path r with
    | None => (Throw (ContentHasMutatedException (path r)), w)
    | Some content =>
        let newContent := apply (edits r) content in
        if String.eqb newContent content then (Ok tt, w)
        else (Ok tt, {| files := <[path r := newContent]> (files w);
                        events := events w |})
    end.

End Host.

(** ** The schematic: [src/import-module-schematic/index.ts] *)
Module Schematic.
Import Ts Host.
Local Open Scope host_scope.

(** The options of the schematic: the path of the file to edit, the
    symbol to import and the module specifier to import it from. *)
Record Options := { module : string; import : string; from : string }.

Definition nl : string := String (ascii_of_nat 10) EmptyString.

(** The test of the decorator loop: the decorator's expression is a call
    of the identifier [NgModule]. *)
Definition isNgModuleDecorator (decorator : Node) : bool :=
  match decorator with
  | Decorator _ (CallExpression _ (Identifier _ text) _ _) =>
      String.eqb text "NgModule"
  | _ => false
  end.

(** The body of [visitNode] before [ts.forEachChild]: [Some decorator]
    when the node is a class declaration and the loop over its
    decorators reaches the assignment and the [return]. *)
Definition ngModuleDecoratorOf (node : Node) : option Node :=
  if isClassDeclaration node
  then List.find isNgModuleDecorator (getDecorators node)
  else None.

(** [visitNode], with the variable [ngModuleDecorator] it assigns to
    passed in and out.  [visitNode] returns [undefined] on every path,
    so [ts.forEachChild], which stops at the first truthy result of its
    callback, always goes through all the children. *)
Fixpoint visitNode (node : Node) (ngModuleDecorator : option Node)
  {struct node} : option Node :=
  let forEach :=
    fix forEach (children : list Node) (acc : option Node) {struct children}
      : option Node :=
      match children with
      | [] => acc
      | child :: rest => forEach rest (visitNode child acc)
      end in
  let forOpt := fun (child : option Node) (acc : option Node) =>
    match child with
    | Some c => visitNode c acc
    | None => acc
    end in
  match ngModuleDecoratorOf node with
  | Some decorator => Some decorator
  | None =>
      match node with
      | Identifier _ _ => ngModuleDecorator
      | CallExpression _ e tas args =>
          forEach args (forEach tas (visitNode e ngModuleDecorator))
      | ObjectLiteralExpression _ props => forEach props ngModuleDecorator
      | PropertyAssignment _ mods n i =>
          visitNode i (visitNode n (forEach mods ngModuleDecorator))
      | ArrayLiteralExpression _ els => forEach els ngModuleDecorator
      | Decorator _ e => visitNode e ngModuleDecorator
      | ClassDeclaration _ mods n tps hcs mems =>
          forEach mems (forEach hcs (forEach tps
            (forOpt n (forEach mods ngModuleDecorator))))
      | ImportDeclaration _ mods ic ms attrs =>
          forOpt attrs (visitNode ms (forOpt ic
            (forEach mods ngModuleDecorator)))
      | ImportClause _ n nb => forOpt nb (forOpt n ngModuleDecorator)
      | OtherNode _ _ cs => forEach cs ngModuleDecorator
      end
  end.

(** [visitNode] over a list of siblings, left to right. *)
Definition visitNodes (nodes : list Node) (ngModuleDecorator : option Node)
  : option Node :=
  fold_left (fun acc node => visitNode node acc) nodes ngModuleDecorator.

(** [findNgModuleDecorator]: the source file itself is no class
    declaration, so the visit starts with its statements. *)
Definition findNgModuleDecorator (sourceFile : SourceFile) : option Node :=
  visitNodes (statements sourceFile) None.

(** The predicate of [find] in [findImportsArray]. *)
Definition isImportsProperty (p : Node) : bool :=
  match p with
  | PropertyAssignment _ _ (Identifier _ text) _ => String.eqb text "imports"
  | _ => false
  end.

(** [findImportsArray]: [Ok None] is the [undefined] it returns.  With
    no argument in the call, [arguments[0]] is [undefined] and the type
    guard [ts.isObjectLiteralExpression] reads its [kind]. *)
Definition findImportsArray (decorator : Node) : Result (option Node) :=
  match decorator with
  | Decorator _ (CallExpression _ _ _ arguments) =>
      match arguments with
      | [] => Throw TypeError
      | argument :: _ =>
          match argument with
          | ObjectLiteralExpression _ properties =>
              let importsProperty :=
                List.find isImportsProperty
                  (List.filter isPropertyAssignment properties) in
              match importsProperty with
              | Some (PropertyAssignment _ _ _ initializer) =>
                  Ok (Some initializer)
              | _ => Ok None
              end
          | _ => Ok None
          end
      end
  | Decorator _ _ => Ok None
  | _ => Throw TypeError
  end.

(** [o === s] for an [o] that may be [undefined] *)
Definition strictEquals (o : option string) (s : string) : bool :=
  match o with
  | Some t => String.eqb t s
  | None => false
  end.

(** [st.importClause] and [clause.namedBindings], [undefined] when the
    node has none. *)
Definition importClauseOf (st : Node) : option Node :=
  match st with
  | ImportDeclaration _ _ importClause _ _ => importClause
  | _ => None
  end.

Definition namedBindingsOf (clause : Node) : option Node :=
  match clause with
  | ImportClause _ _ namedBindings => namedBindings
  | _ => None
  end.

(** The callback of [some] in the check for an existing import. *)
Definition importMatches (sourceFile : SourceFile) (options : Options)
  (st : Node) : bool :=
  match st with
  | ImportDeclaration _ _ _ moduleSpecifier _ =>
      String.eqb (getText moduleSpecifier sourceFile)
                 ("'" +:+ from options +:+ "'")
      && strictEquals
           (match importClauseOf st with
            | Some clause =>
                match namedBindingsOf clause with
                | Some namedBindings => Some (getText namedBindings sourceFile)
                | None => None
                end
            | None => None
            end)
           ("{ " +:+ import options +:+ " }")
  | _ => false
  end.

Definition alreadyImported (sourceFile : SourceFile) (options : Options)
  : bool :=
  existsb (importMatches sourceFile options) (statements sourceFile).

(** The import statement and the array entry the schematic inserts. *)
Definition importStatement (options : Options) : string :=
  nl +:+ "import { " +:+ import options +:+ " } from '" +:+ from options
     +:+ "';" +:+ nl.

Definition arrayEntry (options : Options) : string :=
  "," +:+ nl +:+ "    " +:+ import options.

(** [array.pop()] on the copy [filter] returns, and [array[length - 1]]:
    the last element, [undefined] for an empty array. *)
Definition lastOf (nodes : list Node) : option Node :=
  List.last (List.map Some nodes) None.

Section WithParser.

(** [ts.createSourceFile(fileName, sourceText, ...)] *)
Variable createSourceFile : string -> string -> SourceFile.

Definition parse (fileName sourceText : string) : M SourceFile :=
  emit (EvCreateSourceFile fileName sourceText) ;;;
  ret (createSourceFile fileName sourceText).

(** The rule [importAndAddModule(options)] returns, run on the tree
    of the world. *)
Definition importAndAddModule (options : Options) : M unit :=
  let locationPath := module options in
  text <- read locationPath ;;
  match text with
  | None =>
      throw (SchematicsException
               ("File " +:+ locationPath +:+ " does not exist."))
  | Some sourceText =>
      sourceFile <- parse locationPath sourceText ;;
      let alreadyImported := alreadyImported sourceFile options in
      importRecorder <- beginUpdate locationPath ;;
      importRecorder <-
        (if negb alreadyImported then
           let lastImport :=
             lastOf (List.filter isImportDeclaration (statements sourceFile)) in
           let insertPosition :=
             match lastImport with
             | Some lastImport => getEnd (span lastImport)
             | None => 0
             end in
           insertLeft importRecorder insertPosition (importStatement options)
         else ret importRecorder) ;;
      let ngModuleDecorator := findNgModuleDecorator sourceFile in
      importRecorder <-
        match ngModuleDecorator with
        | Some ngModuleDecorator =>
            importsArray <- lift (findImportsArray ngModuleDecorator) ;;
            match importsArray with
            | Some (ArrayLiteralExpression _ elements) =>
                if negb (existsb
                           (fun el => String.eqb (getText el sourceFile)
                                                 (import options))
                           elements)
                then
                  match lastOf elements with
                  | None => throw TypeError
                  | Some lastImport =>
                      insertRight importRecorder (getEnd (span lastImport))
                                  (arrayEntry options)
                  end
                else ret importRecorder
            | _ => ret importRecorder
            end
        | None => ret importRecorder
        end ;;
      commitUpdate importRecorder
  end.

End WithParser.

End Schematic.

(** ** What the statements below are phrased in *)
Module Spec.
Import Ts Host Schematic.
Local Open Scope list_scope.

(** The insertions among the calls made, as (offset, text) pairs. *)
Definition leftInsertions (evs : list Event) : list (nat * string) :=
  flat_map (fun e => match e with
                     | EvInsertLeft i c => [(i, c)]
                     | _ => []
                     end) evs.

Definition rightInsertions (evs : list Event) : list (nat * string) :=
  flat_map (fun e => match e with
                     | EvInsertRight i c => [(i, c)]
                     | _ => []
                     end) evs.

(** A top-level statement that is an import declaration whose module
    specifier reads ['from'] and whose named bindings read
    [{ import }]. *)
Definition MatchingImport (sourceFile : SourceFile) (options : Options)
  (st : Node) : Prop :=
  exists sp modifiers csp cname bindings specifier attributes,
    st = ImportDeclaration sp modifiers
           (Some (ImportClause csp cname (Some bindings)))
           specifier attributes
    /\ getText specifier sourceFile = "'" +:+ from options +:+ "'"
    /\ getText bindings sourceFile = "{ " +:+ import options +:+ " }".

(** All nodes below and including a node, parents before children and
    children left to right. *)
Fixpoint preorder (node : Node) : list Node :=
  let each :=
    fix each (children : list Node) : list Node :=
      match children with
      | [] => []
      | child :: rest => preorder child ++ each rest
      end in
  let opt := fun (child : option Node) =>
    match child with
    | Some c => preorder c
    | None => []
    end in
  node ::
  match node with
  | Identifier _ _ => []
  | CallExpression _ e tas args => preorder e ++ each tas ++ each args
  | ObjectLiteralExpression _ props => each props
  | PropertyAssignment _ mods n i => each mods ++ preorder n ++ preorder i
  | ArrayLiteralExpression _ els => each els
  | Decorator _ e => preorder e
  | ClassDeclaration _ mods n tps hcs mems =>
      each mods ++ opt n ++ each tps ++ each hcs ++ each mems
  | ImportDeclaration _ mods ic ms attrs =>
      each mods ++ opt ic ++ preorder ms ++ opt attrs
  | ImportClause _ n nb => opt n ++ opt nb
  | OtherNode _ _ cs => each cs
  end.

(** A class declaration that carries a decorator calling [NgModule]. *)
Definition carriesNgModule (node : Node) : bool :=
  match ngModuleDecoratorOf node with
  | Some _ => true
  | None => false
  end.

(** Of the nodes of a list that carry such a decorator, the decorator
    of the first. *)
Definition firstIn (nodes : list Node) : option Node :=
  match List.find carriesNgModule nodes with
  | Some class => ngModuleDecoratorOf class
  | None => None
  end.

(** The decorator the specification names: of the class declarations
    that carry a decorator calling [NgModule], the first in pre-order,
    and of its decorators the first that calls [NgModule]. *)
Definition firstNgModuleDecoratorInPreorder (sourceFile : SourceFile)
  : option Node :=
  firstIn (flat_map preorder (statements sourceFile)).

(** The decorators [visitNode] assigns to its variable, in the order of
    the assignments: a class declaration that carries a decorator
    calling [NgModule] contributes that decorator and is not entered;
    every other node contributes what its children do. *)
Fixpoint assigned (node : Node) : list Node :=
  let each :=
    fix each (children : list Node) : list Node :=
      match children with
      | [] => []
      | child :: rest => assigned child ++ each rest
      end in
  let opt := fun (child : option Node) =>
    match child with
    | Some c => assigned c
    | None => []
    end in
  match ngModuleDecoratorOf node with
  | Some decorator => [decorator]
  | None =>
      match node with
      | Identifier _ _ => []
      | CallExpression _ e tas args => assigned e ++ each tas ++ each args
      | ObjectLiteralExpression _ props => each props
      | PropertyAssignment _ mods n i =>
          each mods ++ assigned n ++ assigned i
      | ArrayLiteralExpression _ els => each els
      | Decorator _ e => assigned e
      | ClassDeclaration _ mods n tps hcs mems =>
          each mods ++ opt n ++ each tps ++ each hcs ++ each mems
      | ImportDeclaration _ mods ic ms attrs =>
          each mods ++ opt ic ++ assigned ms ++ opt attrs
      | ImportClause _ n nb => opt n ++ opt nb
      | OtherNode _ _ cs => each cs
      end
  end.

(** The last element of a list, if any, and else [d]. *)
Definition lastOr (d : option Node) (nodes : list Node) : option Node :=
  List.last (List.map Some nodes) d.

(** What is proved of every node about [visitNode] and [preorder]. *)
Definition VisitsToLast (node : Node) : Prop :=
  forall acc, visitNode node acc = lastOr acc (assigned node).

Definition FirstIsHead (node : Node) : Prop :=
  firstIn (preorder node) = head (assigned node).

(** The insertion of the import statement, as the schematic plans it. *)
Definition lastImportEnd (sourceFile : SourceFile) : nat :=
  match lastOf (List.filter isImportDeclaration (statements sourceFile)) with
  | Some lastImport => getEnd (span lastImport)
  | None => 0
  end.

Definition importEdits (sourceFile : SourceFile) (options : Options)
  : list Edit :=
  if alreadyImported sourceFile options then []
  else [InsertLeft (lastImportEnd sourceFile) (importStatement options)].

(** The insertion of the array entry, or the exception in its way. *)
Definition entryEdits (sourceFile : SourceFile) (options : Options)
  (importsArray : option Node) : Result (list Edit) :=
  match importsArray with
  | Some (ArrayLiteralExpression _ elements) =>
      if existsb (fun el => String.eqb (getText el sourceFile) (import options))
                 elements
      then Ok []
      else match lastOf elements with
           | None => Throw TypeError
           | Some lastImport =>
               Ok [InsertRight (getEnd (span lastImport)) (arrayEntry options)]
           end
  | _ => Ok []
  end.

Definition arrayEdits (sourceFile : SourceFile) (options : Options)
  : Result (list Edit) :=
  match findNgModuleDecorator sourceFile with
  | None => Ok []
  | Some decorator =>
      match findImportsArray decorator with
      | Throw e => Throw e
      | Ok importsArray => entryEdits sourceFile options importsArray
      end
  end.

Definition eventOf (e : Edit) : Event :=
  match e with
  | InsertLeft i c => EvInsertLeft i c
  | InsertRight i c => EvInsertRight i c
  end.

(** The calls every run on an existing file starts with. *)
Definition prologue (p sourceText : string) : list Event :=
  [EvRead p; EvCreateSourceFile p sourceText; EvBeginUpdate p].

End Spec.

(** ** Concrete files

  Syntax trees of small files, with the offsets the parser gives their
  nodes, and parsers that return them. *)
Module Samples.
Import Ts Host Schematic.

Definition sp (a b : nat) : Span := {| getStart := a; getEnd := b |}.

(** [import { names } from 'spec';] *)
Definition namedImport (whole clause : Span) (names : list Node)
  (spec : Span) : Node :=
  ImportDeclaration whole []
    (Some (ImportClause clause None
             (Some (OtherNode clause "NamedImports" names))))
    (OtherNode spec "StringLiteral" []) None.

Definition importSpecifier (s : Span) (name : string) : Node :=
  OtherNode s "ImportSpecifier" [Identifier s name].

(** [import 'spec';] *)
Definition sideEffectImport (whole spec : Span) : Node :=
  ImportDeclaration whole [] None (OtherNode spec "StringLiteral" []) None.

(** [@NgModule(args)], the decorator starting at offset [at_]. *)
Definition ngModule (at_ end_ : nat) (args : list Node) : Node :=
  Decorator (sp at_ end_)
    (CallExpression (sp (at_ + 1) end_)
       (Identifier (sp (at_ + 1) (at_ + 9)) "NgModule") [] args).

(** [{ imports: [elements] }] *)
Definition importsObject (obj key arr : Span) (elements : list Node) : Node :=
  ObjectLiteralExpression obj
    [PropertyAssignment (sp (getStart key) (getEnd arr)) []
       (Identifier key "imports") (ArrayLiteralExpression arr elements)].

(** [decorators class name {}] *)
Definition classDecl (whole : Span) (decorators : list Node) (name : Span)
  (n : string) : Node :=
  ClassDeclaration whole decorators (Some (Identifier name n)) [] [] [].

(** A module that imports [A], after an import of [A]: the file of the
    scenarios. *)
Definition oneModule_text : string :=
  "import { A } from 'a';" +:+ nl +:+ nl +:+
  "@NgModule({ imports: [A] })" +:+ nl +:+
  "class M {}".

Definition oneModule_array : Node :=
  ArrayLiteralExpression (sp 45 48) [Identifier (sp 46 47) "A"].

Definition oneModule_decorator : Node :=
  ngModule 24 51
    [importsObject (sp 34 50) (sp 36 43) (sp 45 48) [Identifier (sp 46 47) "A"]].

Definition oneModule : SourceFile :=
  {| text := oneModule_text;
     statements :=
       [ namedImport (sp 0 22) (sp 7 12) [importSpecifier (sp 9 10) "A"]
           (sp 18 21);
         classDecl (sp 24 62) [oneModule_decorator] (sp 58 59) "M" ] |}.

(** A module whose [imports] array is empty. *)
Definition emptyImports_text : string :=
  "@NgModule({ imports: [] })" +:+ nl +:+
  "class M {}".

Definition emptyImports : SourceFile :=
  {| text := emptyImports_text;
     statements :=
       [ classDecl (sp 0 37)
           [ngModule 0 26
              [importsObject (sp 10 25) (sp 12 19) (sp 21 23) []]]
           (sp 33 34) "M" ] |}.

(** Two modules declared in one file. *)
Definition twoModules_text : string :=
  "@NgModule({ imports: [A] })" +:+ nl +:+
  "class First {}" +:+ nl +:+
  "@NgModule({ imports: [C] })" +:+ nl +:+
  "class Second {}".

Definition first_decorator : Node :=
  ngModule 0 27
    [importsObject (sp 10 26) (sp 12 19) (sp 21 24) [Identifier (sp 22 23) "A"]].

Definition second_decorator : Node :=
  ngModule 43 70
    [importsObject (sp 53 69) (sp 55 62) (sp 64 67) [Identifier (sp 65 66) "C"]].

Definition twoModules : SourceFile :=
  {| text := twoModules_text;
     statements :=
       [ classDecl (sp 0 42) [first_decorator] (sp 34 39) "First";
         classDecl (sp 43 86) [second_decorator] (sp 77 83) "Second" ] |}.

(** A module whose decorator is called without arguments. *)
Definition noArguments_text : string :=
  "@NgModule()" +:+ nl +:+
  "class M {}".

Definition noArguments_decorator : Node := ngModule 0 11 [].

Definition noArguments : SourceFile :=
  {| text := noArguments_text;
     statements :=
       [ classDecl (sp 0 22) [noArguments_decorator] (sp 18 19) "M" ] |}.

(** An import of two names from ['b'], and a module that imports [A]
    and [B]. *)
Definition twoNames_text : string :=
  "import { B, C } from 'b';" +:+ nl +:+ nl +:+
  "@NgModule({ imports: [A, B] })" +:+ nl +:+
  "class M {}".

Definition twoNames : SourceFile :=
  {| text := twoNames_text;
     statements :=
       [ namedImport (sp 0 25) (sp 7 15)
           [importSpecifier (sp 9 10) "B"; importSpecifier (sp 12 13) "C"]
           (sp 21 24);
         classDecl (sp 27 68)
           [ngModule 27 57
              [importsObject (sp 37 56) (sp 39 46) (sp 48 54)
                 [Identifier (sp 49 50) "A"; Identifier (sp 52 53) "B"]]]
           (sp 64 65) "M" ] |}.

(** The import of [B] and the array entry [B] are both there; the
    second import has no import clause. *)
Definition bothPresent_text : string :=
  "import { B } from 'b';" +:+ nl +:+
  "import 'zone';" +:+ nl +:+ nl +:+
  "@NgModule({ imports: [A, B] })" +:+ nl +:+
  "class M {}".

Definition zoneImport : Node := sideEffectImport (sp 23 37) (sp 30 36).

Definition bothPresent_elements : list Node :=
  [Identifier (sp 61 62) "A"; Identifier (sp 64 65) "B"].

Definition bothPresent_decorator : Node :=
  ngModule 39 69
    [importsObject (sp 49 68) (sp 51 58) (sp 60 66) bothPresent_elements].

Definition bothPresent : SourceFile :=
  {| text := bothPresent_text;
     statements :=
       [ namedImport (sp 0 22) (sp 7 12) [importSpecifier (sp 9 10) "B"]
           (sp 18 21);
         zoneImport;
         classDecl (sp 39 80) [bothPresent_decorator] (sp 76 77) "M" ] |}.

(** The options of the scenarios: import [B] from ['b'] into
    [app.module.ts]. *)
Definition importB : Options :=
  {| module := "app.module.ts"; import := "B"; from := "b" |}.

(** A tree with the one file, and the parser restricted to it. *)
Definition treeOf (sourceFile : SourceFile) : gmap string string :=
  {[ "app.module.ts" := text sourceFile ]}.

Definition parserOf (sourceFile : SourceFile) : string -> string -> SourceFile :=
  fun _ _ => sourceFile.

Definition runOn (sourceFile : SourceFile) (options : Options)
  : Result unit * World :=
  importAndAddModule (parserOf sourceFile) options (initial (treeOf sourceFile)).

End Samples.

(** ** Further statements and files *)
Module Coverage.
Import Ts Host Schematic Spec Samples.
Local Open Scope list_scope.

(** What is proved of every node about the decorators [visitNode]
    assigns: each is the decorator of a class declaration below the
    node, and there are at most as many as such class declarations. *)
Definition AssignedFromCarrier (node : Node) : Prop :=
  forall d, In d (assigned node) ->
    exists class, In class (preorder node)
                  /\ ngModuleDecoratorOf class = Some d.

Definition AssignedBounded (node : Node) : Prop :=
  length (assigned node)
  <= length (List.filter carriesNgModule (preorder node)).

(** A decorator whose call has no argument. *)
Definition CalledWithoutArguments (decorator : Node) : Prop :=
  exists dsp csp callee typeArguments,
    decorator = Decorator dsp (CallExpression csp callee typeArguments []).

(** The value [findImportsArray] returned passes the test
    [importsArray && ts.isArrayLiteralExpression(importsArray)]. *)
Definition isArrayLiteral (importsArray : option Node) : bool :=
  match importsArray with
  | Some node => isArrayLiteralExpression node
  | None => false
  end.

(** [export class M {}]: a class without decorator, no import. *)
Definition plainClass_text : string := "export class M {}".

Definition plainClass : SourceFile :=
  {| text := plainClass_text;
     statements :=
       [ ClassDeclaration (sp 0 17) [OtherNode (sp 0 6) "ExportKeyword" []]
           (Some (Identifier (sp 13 14) "M")) [] [] [] ] |}.

(** An import, then a class without decorator. *)
Definition importOnly_text : string :=
  "import { A } from 'a';" +:+ nl +:+
  "export class M {}".

Definition importOnly_import : Node :=
  namedImport (sp 0 22) (sp 7 12) [importSpecifier (sp 9 10) "A"] (sp 18 21).

Definition importOnly_class : Node :=
  ClassDeclaration (sp 23 40) [OtherNode (sp 23 29) "ExportKeyword" []]
    (Some (Identifier (sp 36 37) "M")) [] [] [].

Definition importOnly : SourceFile :=
  {| text := importOnly_text;
     statements := [importOnly_import; importOnly_class] |}.

(** A module whose [imports] is a reference, not an array literal. *)
Definition referenceImports_text : string :=
  "@NgModule({ imports: MODULES })" +:+ nl +:+
  "class M {}".

Definition referenceImports_decorator : Node :=
  ngModule 0 31
    [ObjectLiteralExpression (sp 10 30)
       [PropertyAssignment (sp 12 28) [] (Identifier (sp 12 19) "imports")
          (Identifier (sp 21 28) "MODULES")]].

Definition referenceImports : SourceFile :=
  {| text := referenceImports_text;
     statements :=
       [ classDecl (sp 0 42) [referenceImports_decorator] (sp 38 39) "M" ] |}.

(** The decorator [@NgModule({ declarations: [D], imports: [A] }, extra)]:
    another property before [imports], and a second argument. *)
Definition declarationsProperty : Node :=
  PropertyAssignment (sp 12 29) [] (Identifier (sp 12 24) "declarations")
    (ArrayLiteralExpression (sp 26 29) [Identifier (sp 27 28) "D"]).

Definition importsInitializer : Node :=
  ArrayLiteralExpression (sp 40 43) [Identifier (sp 41 42) "A"].

Definition twoArguments_decorator : Node :=
  ngModule 0 53
    [ObjectLiteralExpression (sp 10 45)
       [declarationsProperty;
        PropertyAssignment (sp 31 43) [] (Identifier (sp 31 38) "imports")
          importsInitializer];
     Identifier (sp 47 52) "extra"].

(** The tree of a sample, with a second file beside it. *)
Definition twoFiles (sourceFile : SourceFile) : gmap string string :=
  <[ "other.ts" := "export const x = 1;" ]> (treeOf sourceFile).

End Coverage.

(** ** The test for an existing import, access by access

    The callback of [some] on lines 26 to 30, with every property access
    and method call written out: reading a property of [undefined] or
    calling a method on it throws a [TypeError], unless the access is
    written [?.], which gives [undefined] instead. *)
Module ImportTest.
Import Ts Host Schematic Samples.

(** How a property is read: [v.p] or [v?.p]. *)
Inductive Access : Type :=
| Plain
| Optional.

(** [v.p] and [v?.p], for a [v] that may be [undefined]; [read] gives
    the property of a node, [None] when the node has none. *)
Definition member {A : Type} (access : Access) (read : Node -> option A)
  (v : option Node) : Result (option A) :=
  match v with
  | Some node => Ok (read node)
  | None =>
      match access with
      | Optional => Ok None
      | Plain => Throw TypeError
      end
  end.

Definition andThen {A B : Type} (r : Result A) (k : A -> Result B) : Result B :=
  match r with
  | Ok a => k a
  | Throw e => Throw e
  end.

(** [node.getText(sourceFile)] as a property read. *)
Definition textOf (sourceFile : SourceFile) (node : Node) : option string :=
  Some (getText node sourceFile).

(** [st.moduleSpecifier], [undefined] when the node has none. *)
Definition moduleSpecifierOf (st : Node) : option Node :=
  match st with
  | ImportDeclaration _ _ _ moduleSpecifier _ => Some moduleSpecifier
  | _ => None
  end.

(** The callback: [access] is how [namedBindings] and [getText] are
    reached from [st.importClause]; the source writes [?.] for both.
    [&&] does not evaluate its right operand when the left one is
    false. *)
Definition importCheck (access : Access) (sourceFile : SourceFile)
  (options : Options) (st : Node) : Result bool :=
  if isImportDeclaration st then
    andThen (member Plain (textOf sourceFile) (moduleSpecifierOf st))
      (fun specifierText =>
         if strictEquals specifierText ("'" +:+ from options +:+ "'") then
           andThen (member access namedBindingsOf (importClauseOf st))
             (fun namedBindings =>
                andThen (member access (textOf sourceFile) namedBindings)
                  (fun bindingsText =>
                     Ok (strictEquals bindingsText
                           ("{ " +:+ import options +:+ " }"))))
         else Ok false)
  else Ok false.

(** [array.some(callback)]: stops at the first element for which the
    callback returns true; an exception of the callback ends it. *)
Fixpoint some (callback : Node -> Result bool) (nodes : list Node)
  : Result bool :=
  match nodes with
  | [] => Ok false
  | node :: rest =>
      match callback node with
      | Ok true => Ok true
      | Ok false => some callback rest
      | Throw e => Throw e
      end
  end.

(** The value of [st.importClause?.namedBindings]. *)
Definition bindingsOf (st : Node) : option Node :=
  match importClauseOf st with
  | Some clause => namedBindingsOf clause
  | None => None
  end.

(** The module specifier of an import declaration reads ['from']. *)
Definition specifierMatches (sourceFile : SourceFile) (options : Options)
  (st : Node) : bool :=
  match st with
  | ImportDeclaration _ _ _ moduleSpecifier _ =>
      String.eqb (getText moduleSpecifier sourceFile)
                 ("'" +:+ from options +:+ "'")
  | _ => false
  end.

(** An import declaration that names no imports in braces: one without
    import clause ([import 'x']), one whose clause has no named bindings
    ([import d from 'x']), or one whose named bindings are a namespace
    import ([import * as ns from 'x']), the text of which begins with a
    star. *)
Definition WithoutNamedImports (sourceFile : SourceFile) (st : Node) : Prop :=
  exists sp modifiers specifier attributes,
    st = ImportDeclaration sp modifiers None specifier attributes
    \/ (exists csp cname,
          st = ImportDeclaration sp modifiers
                 (Some (ImportClause csp cname None)) specifier attributes)
    \/ (exists csp cname nsp children rest,
          st = ImportDeclaration sp modifiers
                 (Some (ImportClause csp cname
                          (Some (OtherNode nsp "NamespaceImport" children))))
                 specifier attributes
          /\ getText (OtherNode nsp "NamespaceImport" children) sourceFile
             = String "*" rest).

(** A file with one import of each of the three kinds, all from ['b']. *)
Definition threeImports_text : string :=
  "import * as ns from 'b';" +:+ nl +:+
  "import 'b';" +:+ nl +:+
  "import d from 'b';".

Definition namespaceImport : Node :=
  ImportDeclaration (sp 0 24) []
    (Some (ImportClause (sp 7 14) None
             (Some (OtherNode (sp 7 14) "NamespaceImport"
                      [Identifier (sp 12 14) "ns"]))))
    (OtherNode (sp 20 23) "StringLiteral" []) None.

Definition bareImport : Node := sideEffectImport (sp 25 36) (sp 32 35).

Definition defaultImport : Node :=
  ImportDeclaration (sp 37 55) []
    (Some (ImportClause (sp 44 45) (Some (Identifier (sp 44 45) "d")) None))
    (OtherNode (sp 51 54) "StringLiteral" []) None.

Definition threeImports : SourceFile :=
  {| text := threeImports_text;
     statements := [namespaceImport; bareImport; defaultImport] |}.

End ImportTest.

(** ** Facts about the pieces of the schematic *)
Section Facts.
Import Ts Host Schematic Spec.
Local Open Scope list_scope.

Variable sourceFile : SourceFile.
Variable options : Options.

Lemma importMatches_spec (st : Node) :
  importMatches sourceFile options st = true
  <-> MatchingImport sourceFile options st.
Proof.
  split.
  - destruct st as [| | | | | | |sp mods ic ms attrs| |]; simpl; try discriminate.
    intros H. apply andb_true_iff in H as [Hspec Hnames].
    apply String.eqb_eq in Hspec.
    destruct ic as [clause|]; simpl in Hnames; [|discriminate].
    destruct clause as [| | | | | | | |csp cname nb|]; simpl in Hnames;
      try discriminate.
    destruct nb as [bindings|]; simpl in Hnames; [|discriminate].
    apply String.eqb_eq in Hnames.
    exists sp, mods, csp, cname, bindings, ms, attrs. auto.
  - intros (sp & mods & csp & cname & bindings & ms & attrs & -> & Hspec & Hnames).
    simpl. rewrite Hspec, Hnames, !String.eqb_refl. reflexivity.
Qed.

Lemma alreadyImported_spec :
  alreadyImported sourceFile options = true
  <-> exists st, In st (statements sourceFile)
                 /\ MatchingImport sourceFile options st.
Proof.
  unfold alreadyImported. rewrite existsb_exists.
  split; intros (st & Hin & H); exists st; split; auto;
    now apply importMatches_spec.
Qed.

Lemma alreadyImported_false :
  (forall st, In st (statements sourceFile)
              -> ~ MatchingImport sourceFile options st)
  -> alreadyImported sourceFile options = false.
Proof.
  intros Hnone. apply not_true_is_false. intros H.
  apply alreadyImported_spec in H as (st & Hin & Hm).
  exact (Hnone st Hin Hm).
Qed.

Lemma lastOf_snoc (init : list Node) (x : Node) : lastOf (init ++ [x]) = Some x.
Proof.
  unfold lastOf. rewrite map_app. simpl. apply last_last.
Qed.

Lemma lastOf_cons_inv (nodes : list Node) :
  nodes <> [] -> exists init x, nodes = init ++ [x] /\ lastOf nodes = Some x.
Proof.
  intros Hne. destruct (exists_last Hne) as (init & x & Heq).
  exists init, x. split; [exact Heq|]. rewrite Heq. apply lastOf_snoc.
Qed.

Lemma filter_none (f : Node -> bool) (nodes : list Node) :
  (forall n, In n nodes -> f n = false) -> List.filter f nodes = [].
Proof.
  induction nodes as [|n rest IH]; simpl; intros H; [reflexivity|].
  rewrite (H n) by auto. apply IH. intros m Hm. apply H. auto.
Qed.

(** The anchor of the import statement. *)
Lemma lastImportEnd_none :
  (forall st, In st (statements sourceFile) -> isImportDeclaration st = false)
  -> lastImportEnd sourceFile = 0.
Proof.
  intros H. unfold lastImportEnd. now rewrite filter_none.
Qed.

Lemma lastImportEnd_last (pre post : list Node) (imp : Node) :
  statements sourceFile = pre ++ imp :: post ->
  isImportDeclaration imp = true ->
  (forall st, In st post -> isImportDeclaration st = false) ->
  lastImportEnd sourceFile = getEnd (span imp).
Proof.
  intros Hst Himp Hpost. unfold lastImportEnd.
  rewrite Hst, List.filter_app. simpl. rewrite Himp, (filter_none _ post Hpost).
  now rewrite lastOf_snoc.
Qed.

(** The planned edits, seen as calls. *)
Lemma importEdits_left :
  leftInsertions (map eventOf (importEdits sourceFile options)) =
    if alreadyImported sourceFile options then []
    else [(lastImportEnd sourceFile, importStatement options)].
Proof. unfold importEdits. now destruct (alreadyImported _ _). Qed.

Lemma importEdits_right :
  rightInsertions (map eventOf (importEdits sourceFile options)) = [].
Proof. unfold importEdits. now destruct (alreadyImported _ _). Qed.

Lemma entryEdits_left (importsArray : option Node) (es : list Edit) :
  entryEdits sourceFile options importsArray = Ok es ->
  leftInsertions (map eventOf es) = [].
Proof.
  unfold entryEdits. intros H.
  destruct importsArray as [[]|]; try (injection H as <-; reflexivity).
  destruct (existsb _ _); [injection H as <-; reflexivity|].
  destruct (lastOf _); [injection H as <-; reflexivity|discriminate].
Qed.

Lemma arrayEdits_left (es : list Edit) :
  arrayEdits sourceFile options = Ok es ->
  leftInsertions (map eventOf es) = [].
Proof.
  unfold arrayEdits. intros H.
  destruct (findNgModuleDecorator _); [|injection H as <-; reflexivity].
  destruct (findImportsArray _); [|discriminate].
  eapply entryEdits_left; eauto.
Qed.

End Facts.

(** ** The run of the schematic, case by case *)
Section Run.
Import Ts Host Schematic Spec.
Local Open Scope list_scope.

Variable createSourceFile : string -> string -> SourceFile.
Variable options : Options.
Variable tree : gmap string string.

(** Committing leaves the tree with the content the insertions give,
    whether or not the file had to be overwritten. *)
Lemma commitUpdate_files (r : UpdateRecorder) (w : World) (content : string) :
  files w !! path r = Some content ->
  commitUpdate r w =
    (Ok tt, {| files := <[path r := apply (edits r) content]> (files w);
               events := events w ++ [EvCommitUpdate (path r)] |}).
Proof.
  intros Hfile. unfold commitUpdate, bind, emit. simpl. rewrite Hfile.
  destruct (String.eqb (apply (edits r) content) content) eqn:Heq; [|reflexivity].
  apply String.eqb_eq in Heq. rewrite Heq.
  rewrite insert_id by exact Hfile. reflexivity.
Qed.

Lemma apply_nil (content : string) : apply [] content = content.
Proof.
  unfold apply. generalize 0.
  induction content as [|c rest IH]; intros i; simpl; [reflexivity|].
  now rewrite IH.
Qed.

(** A path that cannot be read: the exception, after the one call of
    [read]. *)
Lemma run_missing :
  tree !! module options = None ->
  importAndAddModule createSourceFile options (initial tree) =
    (Throw (SchematicsException
              ("File " +:+ module options +:+ " does not exist.")),
     {| files := tree; events := [EvRead (module options)] |}).
Proof.
  intros Hnone. unfold importAndAddModule, read, bind, emit, throw, initial.
  simpl. rewrite Hnone. reflexivity.
Qed.

(** A path that can be read: the calls and the outcome, in terms of the
    planned insertions. *)
Lemma run_existing (sourceText : string) :
  tree !! module options = Some sourceText ->
  importAndAddModule createSourceFile options (initial tree) =
    let sf := createSourceFile (module options) sourceText in
    let pre := prologue (module options) sourceText
               ++ map eventOf (importEdits sf options) in
    match arrayEdits sf options with
    | Throw e => (Throw e, {| files := tree; events := pre |})
    | Ok es =>
        (Ok tt,
         {| files := <[module options :=
                         apply (importEdits sf options ++ es) sourceText]> tree;
            events := pre ++ map eventOf es
                      ++ [EvCommitUpdate (module options)] |})
    end.
Proof.
  intros Hfile.
  unfold importAndAddModule, read, parse, beginUpdate, insertLeft,
    insertRight, lift, bind, emit, ret, throw, initial.
  simpl. rewrite Hfile. simpl. rewrite Hfile.
  unfold arrayEdits, importEdits, entryEdits, lastImportEnd, prologue.
  set (sf := createSourceFile (module options) sourceText).
  destruct (alreadyImported sf options); simpl;
    (destruct (findNgModuleDecorator sf) as [decorator|]; simpl;
     [ destruct (findImportsArray decorator) as [[importsArray|]|e]; simpl;
       [ destruct importsArray; simpl;
         try (erewrite commitUpdate_files by (simpl; exact Hfile);
              reflexivity);
         destruct (existsb _ elements); simpl;
         [ erewrite commitUpdate_files by (simpl; exact Hfile); reflexivity
         | destruct (lastOf elements); simpl;
           [ erewrite commitUpdate_files by (simpl; exact Hfile); reflexivity
           | reflexivity ] ]
       | erewrite commitUpdate_files by (simpl; exact Hfile); reflexivity
       | reflexivity ]
     | erewrite commitUpdate_files by (simpl; exact Hfile); reflexivity ]).
Qed.

End Run.

(** ** Which decorator [findNgModuleDecorator] returns *)
Section Visit.
Import Ts Host Schematic Spec.
Local Open Scope list_scope.

Lemma lastOr_app (d : option Node) (a b : list Node) :
  lastOr d (a ++ b) = lastOr (lastOr d a) b.
Proof.
  unfold lastOr. rewrite map_app.
  induction b as [|x b IH] using rev_ind; simpl.
  - now rewrite app_nil_r.
  - rewrite map_app, app_assoc. simpl. now rewrite !last_last.
Qed.

(** The loops inside [visitNode] and [assigned], by name. *)
Lemma forEach_visitNodes (nodes : list Node) :
  forall acc,
    (fix forEach (children : list Node) (acc : option Node) {struct children}
       : option Node :=
       match children with
       | [] => acc
       | child :: rest => forEach rest (visitNode child acc)
       end) nodes acc
    = visitNodes nodes acc.
Proof.
  induction nodes as [|n rest IH]; intros acc; simpl; [reflexivity|apply IH].
Qed.

Lemma each_assigned (nodes : list Node) :
  (fix each (children : list Node) : list Node :=
     match children with
     | [] => []
     | child :: rest => assigned child ++ each rest
     end) nodes
  = flat_map assigned nodes.
Proof.
  induction nodes as [|n rest IH]; simpl; [reflexivity|now rewrite IH].
Qed.

Lemma visitNodes_assigned (nodes : list Node) :
  list_all Node VisitsToLast nodes ->
  forall acc, visitNodes nodes acc = lastOr acc (flat_map assigned nodes).
Proof.
  induction 1 as [|n Hn rest _ IH]; intros acc; simpl; [reflexivity|].
  unfold visitNodes in *. simpl. now rewrite lastOr_app, IH, Hn.
Qed.

Lemma visitOpt_assigned (child : option Node) :
  option_all Node VisitsToLast child ->
  forall acc,
    match child with Some c => visitNode c acc | None => acc end
    = lastOr acc (match child with Some c => assigned c | None => [] end).
Proof. intros [c Hc|] acc; [apply Hc|reflexivity]. Qed.

(** [visitNode] leaves in its variable the last decorator it assigns,
    and the value it found there when it assigns none. *)
Lemma visitNode_assigned (node : Node) : VisitsToLast node.
Proof.
  induction node; intros acc; simpl;
    repeat rewrite forEach_visitNodes; repeat rewrite each_assigned.
  all: try match goal with
           | |- context [ngModuleDecoratorOf ?n] =>
               destruct (ngModuleDecoratorOf n); [reflexivity|]
           end.
  all: rewrite ?lastOr_app.
  all: repeat first
         [ rewrite visitNodes_assigned by assumption
         | rewrite visitOpt_assigned by assumption
         | match goal with H : VisitsToLast _ |- _ => rewrite H; clear H end ].
  all: try reflexivity.
Qed.

(** [findNgModuleDecorator] returns the last decorator assigned during
    the visit of the whole file. *)
Lemma findNgModuleDecorator_last (sourceFile : SourceFile) :
  findNgModuleDecorator sourceFile
  = lastOr None (flat_map assigned (statements sourceFile)).
Proof.
  unfold findNgModuleDecorator. apply visitNodes_assigned.
  induction (statements sourceFile); constructor; auto.
  apply visitNode_assigned.
Qed.

(** The first such decorator in pre-order is the first one assigned. *)
Lemma firstIn_cons (node : Node) (rest : list Node) :
  firstIn (node :: rest)
  = match ngModuleDecoratorOf node with
    | Some decorator => Some decorator
    | None => firstIn rest
    end.
Proof.
  unfold firstIn, carriesNgModule. simpl.
  destruct (ngModuleDecoratorOf node) eqn:Hd; [exact Hd|reflexivity].
Qed.

Lemma firstIn_app (a b : list Node) :
  firstIn (a ++ b)
  = match firstIn a with
    | Some decorator => Some decorator
    | None => firstIn b
    end.
Proof.
  induction a as [|n a IH]; [reflexivity|].
  rewrite <- app_comm_cons, !firstIn_cons, IH.
  now destruct (ngModuleDecoratorOf n).
Qed.

Lemma head_app (a b : list Node) :
  head (a ++ b)
  = match head a with
    | Some decorator => Some decorator
    | None => head b
    end.
Proof. now destruct a. Qed.

Lemma each_preorder (nodes : list Node) :
  (fix each (children : list Node) : list Node :=
     match children with
     | [] => []
     | child :: rest => preorder child ++ each rest
     end) nodes
  = flat_map preorder nodes.
Proof.
  induction nodes as [|n rest IH]; simpl; [reflexivity|now rewrite IH].
Qed.

Lemma visitNodes_app (a b : list Node) (acc : option Node) :
  visitNodes (a ++ b) acc = visitNodes b (visitNodes a acc).
Proof. apply fold_left_app. Qed.

(** [visitNode] as the source writes it: the loop over the decorators of
    a class declaration, then [ts.forEachChild(node, visitNode)]. *)
Lemma visitNode_forEachChild (node : Node) (acc : option Node) :
  visitNode node acc
  = match ngModuleDecoratorOf node with
    | Some decorator => Some decorator
    | None => visitNodes (childrenOf node) acc
    end.
Proof.
  destruct node; simpl;
    repeat rewrite forEach_visitNodes;
    try (destruct (ngModuleDecoratorOf _); [reflexivity|]);
    repeat rewrite visitNodes_app;
    repeat match goal with
           | o : option Node |- _ => destruct o
           end;
    reflexivity.
Qed.

(** [preorder] lists a node and then its children, left to right. *)
Lemma preorder_childrenOf (node : Node) :
  preorder node = node :: flat_map preorder (childrenOf node).
Proof.
  destruct node; simpl;
    repeat rewrite each_preorder;
    repeat rewrite flat_map_app;
    repeat match goal with
           | o : option Node |- _ => destruct o
           end;
    simpl; repeat rewrite app_nil_r; reflexivity.
Qed.

Lemma firstIn_flat_map (nodes : list Node) :
  list_all Node FirstIsHead nodes ->
  firstIn (flat_map preorder nodes) = head (flat_map assigned nodes).
Proof.
  induction 1 as [|n Hn rest _ IH]; simpl; [reflexivity|].
  now rewrite firstIn_app, head_app, Hn, IH.
Qed.

Lemma firstIn_opt (child : option Node) :
  option_all Node FirstIsHead child ->
  firstIn (match child with Some c => preorder c | None => [] end)
  = head (match child with Some c => assigned c | None => [] end).
Proof. intros [c Hc|]; [apply Hc|reflexivity]. Qed.

Lemma firstIn_preorder (node : Node) : FirstIsHead node.
Proof.
  induction node; unfold FirstIsHead; simpl preorder; simpl assigned;
    rewrite firstIn_cons;
    repeat rewrite each_preorder; repeat rewrite each_assigned.
  all: try match goal with
           | |- context [ngModuleDecoratorOf ?n] =>
               destruct (ngModuleDecoratorOf n); [reflexivity|]
           end.
  all: repeat rewrite firstIn_app; repeat rewrite head_app.
  all: repeat first
         [ rewrite firstIn_flat_map by assumption
         | rewrite firstIn_opt by assumption
         | match goal with
           | H : FirstIsHead _ |- _ => unfold FirstIsHead in H; rewrite H; clear H
           end ].
  all: try reflexivity.
Qed.

(** The specification's decorator is the first of the assigned
    decorators, the schematic's is the last. *)
Lemma first_and_last_assigned (sourceFile : SourceFile) :
  firstNgModuleDecoratorInPreorder sourceFile
  = head (flat_map assigned (statements sourceFile))
  /\ findNgModuleDecorator sourceFile
     = lastOr None (flat_map assigned (statements sourceFile)).
Proof.
  split; [|apply findNgModuleDecorator_last].
  unfold firstNgModuleDecoratorInPreorder. apply firstIn_flat_map.
  induction (statements sourceFile); constructor; auto.
  apply firstIn_preorder.
Qed.

End Visit.

(** ** The behaviour of [importAndAddModule] *)
Section Behaviour.
Import Ts Host Schematic Spec.
Local Open Scope list_scope.

Variable createSourceFile : string -> string -> SourceFile.
Variable options : Options.
Variable tree : gmap string string.
Variable sourceText : string.

Abbreviation run := (importAndAddModule createSourceFile options (initial tree)).
Abbreviation sf := (createSourceFile (module options) sourceText).

Lemma leftInsertions_app (a b : list Event) :
  leftInsertions (a ++ b) = leftInsertions a ++ leftInsertions b.
Proof. apply flat_map_app. Qed.

Lemma rightInsertions_app (a b : list Event) :
  rightInsertions (a ++ b) = rightInsertions a ++ rightInsertions b.
Proof. apply flat_map_app. Qed.

Lemma run_leftInsertions :
  tree !! module options = Some sourceText ->
  leftInsertions (events (snd run)) =
    if alreadyImported sf options then []
    else [(lastImportEnd sf, importStatement options)].
Proof.
  intros Hfile. rewrite (run_existing _ _ _ _ Hfile). cbv zeta.
  destruct (arrayEdits sf options) as [es|e] eqn:Hes; cbn [snd events].
  - rewrite !leftInsertions_app, (arrayEdits_left _ _ _ Hes), importEdits_left.
    simpl. now rewrite app_nil_r.
  - now rewrite leftInsertions_app, importEdits_left.
Qed.

Lemma run_rightInsertions :
  tree !! module options = Some sourceText ->
  rightInsertions (events (snd run)) =
    match arrayEdits sf options with
    | Ok es => rightInsertions (map eventOf es)
    | Throw _ => []
    end.
Proof.
  intros Hfile. rewrite (run_existing _ _ _ _ Hfile). cbv zeta.
  destruct (arrayEdits sf options) as [es|e]; cbn [snd events].
  - rewrite !rightInsertions_app, importEdits_right. simpl.
    now rewrite app_nil_r.
  - now rewrite rightInsertions_app, importEdits_right.
Qed.

Lemma arrayEdits_located (decorator : Node) (importsArray : option Node) :
  findNgModuleDecorator sf = Some decorator ->
  findImportsArray decorator = Ok importsArray ->
  arrayEdits sf options = entryEdits sf options importsArray.
Proof. intros Hd Ha. unfold arrayEdits. now rewrite Hd, Ha. Qed.

(** An empty [imports] array: reading the end of its last element
    throws, after the insertion of the import statement, if any, has
    been recorded, and nothing is committed. *)
Lemma run_empty_array (decorator : Node) (sp : Span) :
  tree !! module options = Some sourceText ->
  findNgModuleDecorator sf = Some decorator ->
  findImportsArray decorator = Ok (Some (ArrayLiteralExpression sp [])) ->
  run = (Throw TypeError,
         {| files := tree;
            events := prologue (module options) sourceText
                      ++ map eventOf (importEdits sf options) |}).
Proof.
  intros Hfile Hd Ha. rewrite (run_existing _ _ _ _ Hfile). cbv zeta.
  now rewrite (arrayEdits_located _ _ Hd Ha).
Qed.

(** A decorator called without arguments: looking for the array
    throws. *)
Lemma run_no_arguments (dsp csp : Span) (callee : Node) (tas : list Node) :
  tree !! module options = Some sourceText ->
  findNgModuleDecorator sf
    = Some (Decorator dsp (CallExpression csp callee tas [])) ->
  run = (Throw TypeError,
         {| files := tree;
            events := prologue (module options) sourceText
                      ++ map eventOf (importEdits sf options) |}).
Proof.
  intros Hfile Hd. rewrite (run_existing _ _ _ _ Hfile). cbv zeta.
  unfold arrayEdits. now rewrite Hd.
Qed.

(** A first argument that is no object literal: no array, no error. *)
Lemma findImportsArray_not_object (dsp csp : Span) (callee argument : Node)
  (tas rest : list Node) :
  isObjectLiteralExpression argument = false ->
  findImportsArray
    (Decorator dsp (CallExpression csp callee tas (argument :: rest)))
  = Ok None.
Proof. intros H. simpl. now destruct argument. Qed.

(** C4. When the path of the options cannot be read from the tree, the
    run throws the exception "File <path> does not exist." right after
    the call of [read]: the file is not parsed, no update is begun, no
    insertion is made, nothing is committed, and the tree is the one the
    run started with. *)
Theorem missing_file_fails :
  tree !! module options = None ->
  importAndAddModule createSourceFile options (initial tree)
  = (Throw (SchematicsException
              ("File " +:+ module options +:+ " does not exist.")),
     {| files := tree; events := [EvRead (module options)] |}).
Proof. apply run_missing. Qed.

(** C5. On a file that can be read, the insertion of the import
    statement is skipped if and only if some top-level statement is an
    import declaration whose module specifier reads ['from'] and whose
    named bindings read [{ import }], both compared as text; when no
    statement passes both comparisons (more names, other white space, an
    alias), the import statement is inserted. *)
Theorem import_skipped_iff_textual_match :
  tree !! module options = Some sourceText ->
  (leftInsertions (events (snd run)) = []
   <-> exists st, In st (statements sf) /\ MatchingImport sf options st)
  /\ ((forall st, In st (statements sf) -> ~ MatchingImport sf options st)
      -> exists pos,
           leftInsertions (events (snd run))
           = [(pos, importStatement options)]).
Proof.
  intros Hfile. rewrite (run_leftInsertions Hfile). split.
  - rewrite <- alreadyImported_spec.
    destruct (alreadyImported sf options); split; intros H;
      try reflexivity; discriminate.
  - intros Hnone. rewrite (alreadyImported_false _ _ Hnone). eauto.
Qed.

(** C6. On a file that can be read and for which the test for an
    existing import is false, exactly one insertion to the left is made;
    its text is a line break, [import { <import> } from '<from>';] and a
    line break; its offset is the end of the last top-level import
    declaration, and 0 when the file has none. *)
Theorem import_inserted_after_last_import :
  tree !! module options = Some sourceText ->
  alreadyImported sf options = false ->
  exists pos,
    leftInsertions (events (snd run))
    = [(pos, nl +:+ "import { " +:+ import options +:+ " } from '"
             +:+ from options +:+ "';" +:+ nl)]
    /\ ((forall st, In st (statements sf) -> isImportDeclaration st = false)
        -> pos = 0)
    /\ (forall pre imp post,
          statements sf = pre ++ imp :: post ->
          isImportDeclaration imp = true ->
          (forall st, In st post -> isImportDeclaration st = false) ->
          pos = getEnd (span imp)).
Proof.
  intros Hfile Hnot. exists (lastImportEnd sf).
  rewrite (run_leftInsertions Hfile), Hnot.
  split; [reflexivity|]. split.
  - apply lastImportEnd_none.
  - intros pre imp post. apply lastImportEnd_last.
Qed.

(** C7. On a file that can be read and in which an [imports] array with
    at least one element is located, the insertion of the array entry is
    skipped exactly when the text of some element equals [import];
    otherwise exactly one insertion to the right is made, of a comma, a
    line break, four blanks and [import], at the end of the last
    element. *)
Theorem array_entry_inserted_after_last_element
  (decorator : Node) (sp : Span) (elements : list Node) :
  tree !! module options = Some sourceText ->
  findNgModuleDecorator sf = Some decorator ->
  findImportsArray decorator = Ok (Some (ArrayLiteralExpression sp elements)) ->
  elements <> [] ->
  (rightInsertions (events (snd run)) = []
   <-> exists el, In el elements /\ getText el sf = import options)
  /\ ((forall el, In el elements -> getText el sf <> import options)
      -> exists init lastEl,
           elements = init ++ [lastEl]
           /\ rightInsertions (events (snd run))
              = [(getEnd (span lastEl),
                  "," +:+ nl +:+ "    " +:+ import options)]).
Proof.
  intros Hfile Hd Ha Hne.
  rewrite (run_rightInsertions Hfile), (arrayEdits_located _ _ Hd Ha).
  destruct (lastOf_cons_inv elements Hne) as (init & lastEl & Heq & Hlast).
  unfold entryEdits. rewrite Hlast.
  destruct (existsb _ elements) eqn:Hex; simpl.
  - apply existsb_exists in Hex as (el & Hin & Htext).
    apply String.eqb_eq in Htext. split.
    + split; [eauto|reflexivity].
    + intros Hnone. now destruct (Hnone el Hin).
  - split.
    + split; [discriminate|]. intros (el & Hin & Htext).
      assert (Hex' : existsb (fun el => String.eqb (getText el sf) (import options))
                       elements = true).
      { apply existsb_exists. exists el. split; [exact Hin|].
        now apply String.eqb_eq. }
      congruence.
    + intros _. exists init, lastEl. split; [exact Heq|reflexivity].
Qed.

(** C9. On a file that can be read, in which the matching import is
    present and the located [imports] array has an element whose text
    equals [import], the run makes no insertion: it reads, parses,
    begins the update and commits it, and the tree, and so the text of
    the file, is the one the run started with. *)
Theorem both_present_nothing_changes
  (decorator : Node) (sp : Span) (elements : list Node) :
  tree !! module options = Some sourceText ->
  (exists st, In st (statements sf) /\ MatchingImport sf options st) ->
  findNgModuleDecorator sf = Some decorator ->
  findImportsArray decorator = Ok (Some (ArrayLiteralExpression sp elements)) ->
  (exists el, In el elements /\ getText el sf = import options) ->
  run = (Ok tt,
         {| files := tree;
            events := [EvRead (module options);
                       EvCreateSourceFile (module options) sourceText;
                       EvBeginUpdate (module options);
                       EvCommitUpdate (module options)] |})
  /\ files (snd run) !! module options = Some sourceText.
Proof.
  intros Hfile Himp Hd Ha (el & Hin & Htext).
  assert (Hrun : run = (Ok tt,
         {| files := tree;
            events := [EvRead (module options);
                       EvCreateSourceFile (module options) sourceText;
                       EvBeginUpdate (module options);
                       EvCommitUpdate (module options)] |})).
  { rewrite (run_existing _ _ _ _ Hfile). cbv zeta.
    rewrite (arrayEdits_located _ _ Hd Ha).
    apply alreadyImported_spec in Himp.
    unfold importEdits, entryEdits. rewrite Himp.
    assert (Hex : existsb (fun el => String.eqb (getText el sf) (import options))
                    elements = true).
    { apply existsb_exists. exists el. split; [exact Hin|].
      now apply String.eqb_eq. }
    rewrite Hex. simpl. rewrite apply_nil, insert_id by exact Hfile.
    reflexivity. }
  split; [exact Hrun|]. rewrite Hrun. exact Hfile.
Qed.

End Behaviour.

(** ** The test for an existing import never throws *)
Section ImportTestFacts.
Import Ts Host Schematic Spec Samples ImportTest.
Local Open Scope list_scope.

Variable sourceFile : SourceFile.
Variable options : Options.

(** With [?.] the callback returns, on every statement, what
    [importMatches] computes. *)
Lemma importCheck_optional (st : Node) :
  importCheck Optional sourceFile options st
  = Ok (importMatches sourceFile options st).
Proof.
  destruct st as [| | | | | | |sp mods ic ms attrs| |]; try reflexivity.
  unfold importCheck, importMatches. simpl.
  destruct (String.eqb (getText ms sourceFile) _); [|reflexivity].
  destruct ic as [clause|]; [|reflexivity]. simpl.
  destruct (namedBindingsOf clause); reflexivity.
Qed.

Lemma some_optional (nodes : list Node) :
  some (importCheck Optional sourceFile options) nodes
  = Ok (existsb (importMatches sourceFile options) nodes).
Proof.
  induction nodes as [|n rest IH]; [reflexivity|].
  simpl. rewrite importCheck_optional.
  destruct (importMatches sourceFile options n); [reflexivity|exact IH].
Qed.

Lemma some_skips (callback : Node -> Result bool) (pre post : list Node)
  (st : Node) :
  callback st = Ok false ->
  some callback (pre ++ st :: post) = some callback (pre ++ post).
Proof.
  intros Hst. induction pre as [|n pre IH]; simpl; [now rewrite Hst|].
  destruct (callback n) as [[|]|e]; [reflexivity|exact IH|reflexivity].
Qed.

Lemma withoutNamedImports_no_match (st : Node) :
  WithoutNamedImports sourceFile st ->
  importMatches sourceFile options st = false.
Proof.
  intros (sp & mods & ms & attrs
          & [-> | [(csp & cname & ->)
                  | (csp & cname & nsp & children & rest & -> & Hstar)]]);
    simpl; try apply andb_false_r.
  rewrite Hstar. apply andb_false_r.
Qed.

(** Read with [.] in place of [?.], the callback throws on an import
    without clause or without named bindings whose module specifier
    matches. *)
Lemma importCheck_plain_throws (st : Node) :
  isImportDeclaration st = true ->
  bindingsOf st = None ->
  specifierMatches sourceFile options st = true ->
  importCheck Plain sourceFile options st = Throw TypeError.
Proof.
  destruct st as [| | | | | | |sp mods ic ms attrs| |]; try discriminate.
  intros _ Hnone Hspec. unfold importCheck, bindingsOf in *. simpl in *.
  rewrite Hspec. destruct ic as [clause|]; [|reflexivity]. simpl in *.
  now rewrite Hnone.
Qed.

(** C10. The test for an existing import returns a boolean on every
    top-level statement, and [some] returns one on the statements of
    every file: the one [importAndAddModule] goes on with.  On an import
    declaration without import clause, without named bindings, or with a
    namespace import for named bindings, the test returns false without
    throwing; the declaration is no matching import; and the test over a
    list of statements gives, with the declaration in the list, what it
    gives without it.  Where the optional access finds [undefined] and
    the module specifier matches, the same test written with plain
    access throws a [TypeError]. *)
Theorem import_without_named_imports_never_matches_nor_throws
  (st : Node) (pre post : list Node) :
  WithoutNamedImports sourceFile st ->
  (forall st', exists b, importCheck Optional sourceFile options st' = Ok b)
  /\ some (importCheck Optional sourceFile options) (statements sourceFile)
     = Ok (alreadyImported sourceFile options)
  /\ importCheck Optional sourceFile options st = Ok false
  /\ ~ MatchingImport sourceFile options st
  /\ some (importCheck Optional sourceFile options) (pre ++ st :: post)
     = some (importCheck Optional sourceFile options) (pre ++ post)
  /\ (bindingsOf st = None ->
      specifierMatches sourceFile options st = true ->
      importCheck Plain sourceFile options st = Throw TypeError).
Proof.
  intros Hst.
  pose proof (withoutNamedImports_no_match st Hst) as Hfalse.
  assert (Hcheck : importCheck Optional sourceFile options st = Ok false)
    by now rewrite importCheck_optional, Hfalse.
  split; [intros st'; rewrite importCheck_optional; eauto|].
  split; [apply some_optional|].
  split; [exact Hcheck|]. split.
  { intros Hm. apply importMatches_spec in Hm. congruence. }
  split; [now apply some_skips|].
  apply importCheck_plain_throws.
  destruct Hst as (sp & mods & ms & attrs
                   & [-> | [(csp & cname & ->)
                           | (csp & cname & nsp & children & rest & -> & _)]]);
    reflexivity.
Qed.

End ImportTestFacts.

(** ** The three kinds of import without names in braces *)
Section ImportTestInstances.
Import Ts Host Schematic Spec Samples ImportTest.
Local Open Scope list_scope.

Example threeImports_texts :
  map (fun st => getText st threeImports) (statements threeImports)
  = ["import * as ns from 'b';"; "import 'b';"; "import d from 'b';"]
  /\ option_map (fun n => getText n threeImports) (bindingsOf namespaceImport)
     = Some "* as ns".
Proof. split; reflexivity. Qed.

(** None of the three is taken for an import of [B] from ['b'], and the
    test over the file returns false. *)
Example threeImports_not_imported :
  map (importCheck Optional threeImports importB) (statements threeImports)
  = [Ok false; Ok false; Ok false]
  /\ some (importCheck Optional threeImports importB) (statements threeImports)
     = Ok false
  /\ alreadyImported threeImports importB = false.
Proof. repeat split; reflexivity. Qed.

(** With plain access the test throws on the import without clause and
    on the default import, not on the namespace import. *)
Example threeImports_plain_access :
  map (importCheck Plain threeImports importB) (statements threeImports)
  = [Ok false; Throw TypeError; Throw TypeError].
Proof. reflexivity. Qed.

(** Each of the three is an import without names in braces. *)
Example threeImports_shapes :
  WithoutNamedImports threeImports namespaceImport
  /\ WithoutNamedImports threeImports bareImport
  /\ WithoutNamedImports threeImports defaultImport.
Proof.
  unfold WithoutNamedImports, namespaceImport, bareImport, sideEffectImport,
    defaultImport.
  split; [|split].
  - do 4 eexists. right. right. do 5 eexists. split; reflexivity.
  - do 4 eexists. left. reflexivity.
  - do 4 eexists. right. left. do 2 eexists. reflexivity.
Qed.

Lemma import_without_named_imports_never_matches_nor_throws_witness :
  (forall st', exists b, importCheck Optional threeImports importB st' = Ok b)
  /\ some (importCheck Optional threeImports importB) (statements threeImports)
     = Ok (alreadyImported threeImports importB)
  /\ importCheck Optional threeImports importB namespaceImport = Ok false
  /\ ~ MatchingImport threeImports importB namespaceImport
  /\ some (importCheck Optional threeImports importB)
          ([bareImport] ++ namespaceImport :: [defaultImport])
     = some (importCheck Optional threeImports importB)
            ([bareImport] ++ [defaultImport])
  /\ (bindingsOf namespaceImport = None ->
      specifierMatches threeImports importB namespaceImport = true ->
      importCheck Plain threeImports importB namespaceImport = Throw TypeError).
Proof.
  apply (import_without_named_imports_never_matches_nor_throws threeImports
           importB namespaceImport [bareImport] [defaultImport]).
  unfold WithoutNamedImports, namespaceImport.
  do 4 eexists. right. right. do 5 eexists. split; reflexivity.
Defined.

End ImportTestInstances.

(** ** The schematic on the concrete files *)
Section Scenarios.
Import Ts Host Schematic Spec Samples.
Local Open Scope list_scope.

(** The offsets of the sample trees select the intended text. *)
Example oneModule_texts :
  map (fun st => getText st oneModule) (statements oneModule)
  = ["import { A } from 'a';";
     "@NgModule({ imports: [A] })" +:+ nl +:+ "class M {}"]
  /\ getText oneModule_decorator oneModule = "@NgModule({ imports: [A] })"
  /\ getText oneModule_array oneModule = "[A]".
Proof. repeat split; reflexivity. Qed.

Example twoModules_texts :
  getText first_decorator twoModules = "@NgModule({ imports: [A] })"
  /\ getText second_decorator twoModules = "@NgModule({ imports: [C] })".
Proof. split; reflexivity. Qed.

Example bothPresent_texts :
  map (fun st => getText st bothPresent) (statements bothPresent)
  = ["import { B } from 'b';"; "import 'zone';";
     "@NgModule({ imports: [A, B] })" +:+ nl +:+ "class M {}"]
  /\ map (fun el => getText el bothPresent) bothPresent_elements = ["A"; "B"].
Proof. split; reflexivity. Qed.

(** Scenario "insert both": the import goes after the existing import,
    the entry after [A]. *)
Example scenario_insert_both :
  fst (runOn oneModule importB) = Ok tt
  /\ files (snd (runOn oneModule importB)) !! "app.module.ts"
     = Some ("import { A } from 'a';" +:+ nl +:+
             "import { B } from 'b';" +:+ nl +:+ nl +:+ nl +:+
             "@NgModule({ imports: [A," +:+ nl +:+
             "    B] })" +:+ nl +:+
             "class M {}").
Proof. split; vm_compute; reflexivity. Qed.

(** An import of [B] together with another name does not count as an
    import of [B]: a second import line is inserted. *)
Example scenario_two_names :
  alreadyImported twoNames importB = false
  /\ files (snd (runOn twoNames importB)) !! "app.module.ts"
     = Some ("import { B, C } from 'b';" +:+ nl +:+
             "import { B } from 'b';" +:+ nl +:+ nl +:+ nl +:+
             "@NgModule({ imports: [A, B] })" +:+ nl +:+
             "class M {}").
Proof. split; vm_compute; reflexivity. Qed.

(** C1. On the file [@NgModule({ imports: [] }) class M {}] the empty
    array is located, and the run throws a [TypeError] instead of
    completing: the import statement has been handed to the recorder,
    the update is never committed, the tree is unchanged. *)
Theorem empty_imports_array_throws :
  findNgModuleDecorator emptyImports
    = Some (ngModule 0 26
              [importsObject (sp 10 25) (sp 12 19) (sp 21 23) []])
  /\ findImportsArray
       (ngModule 0 26 [importsObject (sp 10 25) (sp 12 19) (sp 21 23) []])
     = Ok (Some (ArrayLiteralExpression (sp 21 23) []))
  /\ runOn emptyImports importB
     = (Throw TypeError,
        {| files := treeOf emptyImports;
           events := [EvRead "app.module.ts";
                      EvCreateSourceFile "app.module.ts" emptyImports_text;
                      EvBeginUpdate "app.module.ts";
                      EvInsertLeft 0 (importStatement importB)] |}).
Proof.
  split; [reflexivity|]. split; [reflexivity|].
  apply (run_empty_array (parserOf emptyImports) importB (treeOf emptyImports)
           emptyImports_text
           (ngModule 0 26 [importsObject (sp 10 25) (sp 12 19) (sp 21 23) []])
           (sp 21 23)); reflexivity.
Qed.

(** C2. On a file that declares two modules, the first decorator in
    pre-order that calls [NgModule] is the one of the first class, but
    [findNgModuleDecorator] returns the one of the second class, and the
    array entry is inserted into the array of the second class. *)
Theorem last_ngmodule_decorator_is_used :
  firstNgModuleDecoratorInPreorder twoModules = Some first_decorator
  /\ findNgModuleDecorator twoModules = Some second_decorator
  /\ first_decorator <> second_decorator
  /\ rightInsertions (events (snd (runOn twoModules importB)))
     = [(66, arrayEntry importB)]
  /\ files (snd (runOn twoModules importB)) !! "app.module.ts"
     = Some (nl +:+ "import { B } from 'b';" +:+ nl +:+
             "@NgModule({ imports: [A] })" +:+ nl +:+
             "class First {}" +:+ nl +:+
             "@NgModule({ imports: [C," +:+ nl +:+
             "    B] })" +:+ nl +:+
             "class Second {}").
Proof.
  split; [reflexivity|]. split; [reflexivity|].
  split; [discriminate|]. split; vm_compute; reflexivity.
Qed.

(** C3. On the file [@NgModule() class M {}] the decorator is located,
    the call has no argument, and the look-up of the array throws a
    [TypeError] instead of answering "not found"; the run ends with
    that exception. *)
Theorem decorator_without_arguments_throws :
  findNgModuleDecorator noArguments = Some noArguments_decorator
  /\ findImportsArray noArguments_decorator = Throw TypeError
  /\ runOn noArguments importB
     = (Throw TypeError,
        {| files := treeOf noArguments;
           events := [EvRead "app.module.ts";
                      EvCreateSourceFile "app.module.ts" noArguments_text;
                      EvBeginUpdate "app.module.ts";
                      EvInsertLeft 0 (importStatement importB)] |}).
Proof.
  split; [reflexivity|]. split; [reflexivity|].
  apply (run_no_arguments (parserOf noArguments) importB (treeOf noArguments)
           noArguments_text (sp 0 11) (sp 1 11)
           (Identifier (sp 1 9) "NgModule") []); reflexivity.
Qed.

Lemma missing_file_fails_witness :
  importAndAddModule (parserOf oneModule)
    {| module := "missing.ts"; import := "B"; from := "b" |}
    (initial (treeOf oneModule))
  = (Throw (SchematicsException "File missing.ts does not exist."),
     {| files := treeOf oneModule; events := [EvRead "missing.ts"] |}).
Proof.
  apply (missing_file_fails (parserOf oneModule)
           {| module := "missing.ts"; import := "B"; from := "b" |}
           (treeOf oneModule)).
  reflexivity.
Defined.

Lemma import_skipped_iff_textual_match_witness :
  (leftInsertions (events (snd (runOn bothPresent importB))) = []
   <-> exists st, In st (statements bothPresent)
                  /\ MatchingImport bothPresent importB st)
  /\ ((forall st, In st (statements bothPresent)
                  -> ~ MatchingImport bothPresent importB st)
      -> exists pos,
           leftInsertions (events (snd (runOn bothPresent importB)))
           = [(pos, importStatement importB)]).
Proof.
  apply (import_skipped_iff_textual_match (parserOf bothPresent) importB
           (treeOf bothPresent) bothPresent_text).
  reflexivity.
Defined.

Lemma import_inserted_after_last_import_witness :
  exists pos,
    leftInsertions (events (snd (runOn oneModule importB)))
    = [(pos, nl +:+ "import { B } from 'b';" +:+ nl)]
    /\ ((forall st, In st (statements oneModule)
                    -> isImportDeclaration st = false) -> pos = 0)
    /\ (forall pre imp post,
          statements oneModule = pre ++ imp :: post ->
          isImportDeclaration imp = true ->
          (forall st, In st post -> isImportDeclaration st = false) ->
          pos = getEnd (span imp)).
Proof.
  apply (import_inserted_after_last_import (parserOf oneModule) importB
           (treeOf oneModule) oneModule_text); reflexivity.
Defined.

Lemma array_entry_inserted_after_last_element_witness :
  (rightInsertions (events (snd (runOn oneModule importB))) = []
   <-> exists el, In el [Identifier (sp 46 47) "A"]
                  /\ getText el oneModule = "B")
  /\ ((forall el, In el [Identifier (sp 46 47) "A"]
                  -> getText el oneModule <> "B")
      -> exists init lastEl,
           [Identifier (sp 46 47) "A"] = init ++ [lastEl]
           /\ rightInsertions (events (snd (runOn oneModule importB)))
              = [(getEnd (span lastEl), "," +:+ nl +:+ "    B")]).
Proof.
  apply (array_entry_inserted_after_last_element (parserOf oneModule) importB
           (treeOf oneModule) oneModule_text oneModule_decorator (sp 45 48)
           [Identifier (sp 46 47) "A"]);
    [reflexivity | reflexivity | reflexivity | discriminate].
Defined.

Lemma both_present_nothing_changes_witness :
  runOn bothPresent importB
  = (Ok tt,
     {| files := treeOf bothPresent;
        events := [EvRead "app.module.ts";
                   EvCreateSourceFile "app.module.ts" bothPresent_text;
                   EvBeginUpdate "app.module.ts";
                   EvCommitUpdate "app.module.ts"] |})
  /\ files (snd (runOn bothPresent importB)) !! "app.module.ts"
     = Some bothPresent_text.
Proof.
  apply (both_present_nothing_changes (parserOf bothPresent) importB
           (treeOf bothPresent) bothPresent_text bothPresent_decorator
           (sp 60 66) bothPresent_elements).
  - reflexivity.
  - exists (namedImport (sp 0 22) (sp 7 12) [importSpecifier (sp 9 10) "B"]
              (sp 18 21)).
    split; [simpl; auto|]. unfold MatchingImport, namedImport.
    repeat eexists; reflexivity.
  - reflexivity.
  - reflexivity.
  - exists (Identifier (sp 64 65) "B"). split; [simpl; auto|reflexivity].
Defined.

End Scenarios.

(** ** The search for the decorator, over the whole tree *)
Section Search.
Import Ts Host Schematic Spec Samples Coverage.
Local Open Scope list_scope.

Lemma list_all_In (P : Node -> Prop) (nodes : list Node) :
  list_all Node P nodes -> forall c, In c nodes -> P c.
Proof.
  induction 1 as [|n Hn rest _ IH]; intros c Hin; [destruct Hin|].
  destruct Hin as [<-|Hin]; auto.
Qed.

Lemma option_all_In (P : Node -> Prop) (child : option Node) :
  option_all Node P child -> forall c, In c (opt_list child) -> P c.
Proof.
  intros [n Hn|] c Hin; simpl in Hin; [|destruct Hin].
  destruct Hin as [<-|[]]. exact Hn.
Qed.

(** Induction on a node from its children. *)
Lemma Node_children_ind (P : Node -> Prop) :
  (forall node, (forall c, In c (childrenOf node) -> P c) -> P node) ->
  forall node, P node.
Proof.
  intros step. induction node; apply step; simpl; intros c Hin;
    repeat match goal with
           | H : In _ (_ ++ _) |- _ => apply in_app_or in H as [H|H]
           | H : _ \/ _ |- _ => destruct H as [H|H]
           | H : In _ (_ :: _) |- _ => destruct H as [H|H]
           | H : In _ [] |- _ => destruct H
           | H : False |- _ => destruct H
           | H : ?n = c |- _ => subst c
           end;
    try assumption;
    try match goal with
        | H : list_all Node _ ?l, Hc : In c ?l |- _ =>
            exact (list_all_In _ _ H _ Hc)
        | H : option_all Node _ ?o, Hc : In c (opt_list ?o) |- _ =>
            exact (option_all_In _ _ H _ Hc)
        end.
Qed.

Lemma assigned_childrenOf (node : Node) :
  assigned node
  = match ngModuleDecoratorOf node with
    | Some decorator => [decorator]
    | None => flat_map assigned (childrenOf node)
    end.
Proof.
  destruct node; simpl;
    repeat rewrite each_assigned;
    try (destruct (ngModuleDecoratorOf _); [reflexivity|]);
    repeat rewrite flat_map_app;
    repeat match goal with
           | o : option Node |- _ => destruct o
           end;
    simpl; repeat rewrite app_nil_r; reflexivity.
Qed.

Lemma carriesNgModule_true (node : Node) :
  carriesNgModule node = true <-> exists d, ngModuleDecoratorOf node = Some d.
Proof.
  unfold carriesNgModule. destruct (ngModuleDecoratorOf node) as [d|].
  - split; eauto.
  - split; [discriminate|]. intros [d Hd]. discriminate.
Qed.

Lemma assigned_from_carrier (node : Node) : AssignedFromCarrier node.
Proof.
  induction node as [node IH] using Node_children_ind. intros d.
  rewrite assigned_childrenOf, preorder_childrenOf.
  destruct (ngModuleDecoratorOf node) as [d0|] eqn:Hnode.
  - intros [<-|[]]. exists node. split; [now left|exact Hnode].
  - intros Hin. apply in_flat_map in Hin as (c & Hc & Hd).
    destruct (IH c Hc d Hd) as (class & Hclass & Hcarries).
    exists class. split; [|exact Hcarries].
    right. apply in_flat_map. eauto.
Qed.

Lemma assigned_bounded (node : Node) : AssignedBounded node.
Proof.
  induction node as [node IH] using Node_children_ind.
  unfold AssignedBounded. rewrite assigned_childrenOf, preorder_childrenOf.
  simpl. unfold carriesNgModule at 1.
  destruct (ngModuleDecoratorOf node) as [d0|]; simpl; [lia|].
  induction (childrenOf node) as [|c rest IHrest]; simpl; [lia|].
  rewrite List.filter_app, !length_app.
  assert (Hc : AssignedBounded c) by (apply IH; now left).
  assert (Hrest : length (flat_map assigned rest)
                  <= length (List.filter carriesNgModule
                               (flat_map preorder rest))).
  { apply IHrest. intros c' Hc'. apply IH. now right. }
  unfold AssignedBounded in Hc. lia.
Qed.

Lemma flat_map_assigned_bounded (nodes : list Node) :
  length (flat_map assigned nodes)
  <= length (List.filter carriesNgModule (flat_map preorder nodes)).
Proof.
  induction nodes as [|n rest IH]; simpl; [lia|].
  rewrite List.filter_app, !length_app.
  pose proof (assigned_bounded n) as Hn. unfold AssignedBounded in Hn. lia.
Qed.

Lemma lastOr_In (nodes : list Node) (d : Node) :
  lastOr None nodes = Some d -> In d nodes.
Proof.
  destruct nodes as [|n rest]; [discriminate|].
  destruct (lastOf_cons_inv (n :: rest)) as (init & x & Heq & Hlast);
    [discriminate|].
  unfold lastOr. unfold lastOf in Hlast. rewrite Hlast. intros [= <-].
  rewrite Heq. apply in_or_app. right. now left.
Qed.

Lemma lastOr_None (nodes : list Node) : lastOr None nodes = None -> nodes = [].
Proof.
  destruct nodes as [|n rest]; [reflexivity|].
  destruct (lastOf_cons_inv (n :: rest)) as (init & x & Heq & Hlast);
    [discriminate|].
  unfold lastOr. unfold lastOf in Hlast. rewrite Hlast. discriminate.
Qed.

Lemma firstIn_None (nodes : list Node) :
  firstIn nodes = None
  <-> forall node, In node nodes -> ngModuleDecoratorOf node = None.
Proof.
  induction nodes as [|n rest IH]; [split; [intros _ node []|reflexivity]|].
  rewrite firstIn_cons. destruct (ngModuleDecoratorOf n) as [d|] eqn:Hn.
  - split; [discriminate|]. intros H. specialize (H n (or_introl eq_refl)).
    congruence.
  - rewrite IH. split.
    + intros H node [<-|Hin]; auto.
    + intros H node Hin. apply H. now right.
Qed.

Lemma ngModuleDecoratorOf_Some (class d : Node) :
  ngModuleDecoratorOf class = Some d ->
  isClassDeclaration class = true
  /\ List.find isNgModuleDecorator (getDecorators class) = Some d
  /\ In d (getDecorators class)
  /\ isNgModuleDecorator d = true.
Proof.
  unfold ngModuleDecoratorOf.
  destruct (isClassDeclaration class); [|discriminate].
  intros Hfind. split; [reflexivity|]. split; [exact Hfind|].
  now apply find_some in Hfind.
Qed.

Lemma find_filter_first (f g : Node -> bool) (pre post : list Node) (d : Node) :
  f d = true -> g d = true ->
  (forall m, In m pre -> f m = false) ->
  List.find f (List.filter g (pre ++ d :: post)) = Some d.
Proof.
  intros Hf Hg Hpre. induction pre as [|m pre IH]; simpl.
  - now rewrite Hg; simpl; rewrite Hf.
  - assert (Hm : f m = false) by (apply Hpre; now left).
    assert (IH' : find f (List.filter g (pre ++ d :: post)) = Some d).
    { apply IH. intros m' Hm'. apply Hpre. now right. }
    destruct (g m); simpl; [rewrite Hm|]; exact IH'.
Qed.

Lemma visitNodes_cons (n : Node) (rest : list Node) (acc : option Node) :
  visitNodes (n :: rest) acc = visitNodes rest (visitNode n acc).
Proof. reflexivity. Qed.

Lemma all_visit_to_last (nodes : list Node) :
  list_all Node VisitsToLast nodes.
Proof.
  induction nodes; constructor; auto. apply visitNode_assigned.
Qed.

Lemma no_carrier_no_assigned (nodes : list Node) :
  (forall node, In node (flat_map preorder nodes)
                -> ngModuleDecoratorOf node = None) ->
  flat_map assigned nodes = [].
Proof.
  intros Hnone. destruct (flat_map assigned nodes) as [|d rest] eqn:HL;
    [reflexivity|].
  assert (Hin : In d (flat_map assigned nodes)) by (rewrite HL; now left).
  apply in_flat_map in Hin as (n & Hn & Hd).
  destruct (assigned_from_carrier n d Hd) as (class & Hclass & Hcarries).
  rewrite Hnone in Hcarries; [discriminate|].
  apply in_flat_map. eauto.
Qed.

Lemma located_from_carrier (sourceFile : SourceFile) (d : Node) :
  findNgModuleDecorator sourceFile = Some d ->
  exists class,
    In class (flat_map preorder (statements sourceFile))
    /\ ngModuleDecoratorOf class = Some d.
Proof.
  rewrite findNgModuleDecorator_last. intros Hlast.
  apply lastOr_In, in_flat_map in Hlast as (st & Hst & Hd).
  destruct (assigned_from_carrier st d Hd) as (class & Hclass & Hcarries).
  exists class. split; [|exact Hcarries]. apply in_flat_map. eauto.
Qed.

Lemma located_calls_NgModule (sourceFile : SourceFile) (d : Node) :
  findNgModuleDecorator sourceFile = Some d -> isNgModuleDecorator d = true.
Proof.
  intros Hd. destruct (located_from_carrier _ _ Hd) as (class & _ & Hc).
  now apply ngModuleDecoratorOf_Some in Hc.
Qed.

Lemma none_without_carrier (sourceFile : SourceFile) :
  (forall node, In node (flat_map preorder (statements sourceFile))
                -> ngModuleDecoratorOf node = None) ->
  findNgModuleDecorator sourceFile = None.
Proof.
  intros Hnone. rewrite findNgModuleDecorator_last.
  now rewrite (no_carrier_no_assigned _ Hnone).
Qed.

(** X1. Whatever [findNgModuleDecorator] returns is the first decorator
    calling [NgModule] of a class declaration of the file, at any
    depth. *)
Theorem findNgModuleDecorator_sound (sourceFile : SourceFile) (d : Node) :
  findNgModuleDecorator sourceFile = Some d ->
  exists class,
    In class (flat_map preorder (statements sourceFile))
    /\ isClassDeclaration class = true
    /\ List.find isNgModuleDecorator (getDecorators class) = Some d
    /\ isNgModuleDecorator d = true.
Proof.
  intros Hd. destruct (located_from_carrier _ _ Hd) as (class & Hin & Hc).
  apply ngModuleDecoratorOf_Some in Hc as (Hclass & Hfind & _ & Hng).
  exists class. auto.
Qed.

(** X2. [findNgModuleDecorator] returns nothing exactly when no node of
    the file, at any depth, is a class declaration with a decorator
    calling [NgModule]. *)
Theorem findNgModuleDecorator_none_iff (sourceFile : SourceFile) :
  findNgModuleDecorator sourceFile = None
  <-> forall node, In node (flat_map preorder (statements sourceFile))
                   -> ngModuleDecoratorOf node = None.
Proof.
  split; [|apply none_without_carrier].
  destruct (first_and_last_assigned sourceFile) as [Hfirst Hlast].
  unfold firstNgModuleDecoratorInPreorder in Hfirst.
  rewrite <- firstIn_None, Hfirst, Hlast.
  intros H. now rewrite (lastOr_None _ H).
Qed.

(** X3. Of the top-level classes with a decorator calling [NgModule],
    the last one decides when nothing after it has such a class; within
    that class, the first such decorator is the one returned. *)
Theorem last_top_level_module_decides (sourceFile : SourceFile)
  (before after pre post : list Node) (sp : Span) (name : option Node)
  (typeParameters heritageClauses members : list Node) (d : Node) :
  statements sourceFile
  = before ++ ClassDeclaration sp (pre ++ d :: post) name typeParameters
                heritageClauses members :: after ->
  isNgModuleDecorator d = true ->
  (forall m, In m pre -> isNgModuleDecorator m = false) ->
  (forall node, In node (flat_map preorder after)
                -> ngModuleDecoratorOf node = None) ->
  findNgModuleDecorator sourceFile = Some d.
Proof.
  intros Hst Hd Hpre Hafter. unfold findNgModuleDecorator.
  rewrite Hst, visitNodes_app, visitNodes_cons, visitNode_forEachChild.
  assert (Hcls : ngModuleDecoratorOf
                   (ClassDeclaration sp (pre ++ d :: post) name typeParameters
                      heritageClauses members) = Some d).
  { unfold ngModuleDecoratorOf. simpl. apply find_filter_first; auto.
    destruct d as [| | | | |dsp e| | | |]; try discriminate. reflexivity. }
  rewrite Hcls, visitNodes_assigned.
  - now rewrite (no_carrier_no_assigned after Hafter).
  - apply all_visit_to_last.
Qed.

(** X4. In a file with at most one class declaration that carries a
    decorator calling [NgModule], at any depth, [findNgModuleDecorator]
    returns the first such decorator in pre-order. *)
Theorem single_module_first_in_preorder (sourceFile : SourceFile) :
  length (List.filter carriesNgModule
            (flat_map preorder (statements sourceFile))) <= 1 ->
  findNgModuleDecorator sourceFile
  = firstNgModuleDecoratorInPreorder sourceFile.
Proof.
  intros Hone.
  destruct (first_and_last_assigned sourceFile) as [-> ->].
  pose proof (flat_map_assigned_bounded (statements sourceFile)) as Hlen.
  destruct (flat_map assigned (statements sourceFile)) as [|d [|d' rest]];
    [reflexivity|reflexivity|simpl in Hlen; lia].
Qed.

Lemma findNgModuleDecorator_sound_witness :
  exists class,
    In class (flat_map preorder (statements oneModule))
    /\ isClassDeclaration class = true
    /\ List.find isNgModuleDecorator (getDecorators class)
       = Some oneModule_decorator
    /\ isNgModuleDecorator oneModule_decorator = true.
Proof.
  apply (findNgModuleDecorator_sound oneModule oneModule_decorator).
  reflexivity.
Defined.

Lemma last_top_level_module_decides_witness :
  findNgModuleDecorator twoModules = Some second_decorator.
Proof.
  apply (last_top_level_module_decides twoModules
           [classDecl (sp 0 42) [first_decorator] (sp 34 39) "First"] []
           [] [] (sp 43 86) (Some (Identifier (sp 77 83) "Second")) [] [] []
           second_decorator).
  - reflexivity.
  - reflexivity.
  - intros m [].
  - intros node [].
Defined.

Lemma single_module_first_in_preorder_witness :
  findNgModuleDecorator oneModule = firstNgModuleDecoratorInPreorder oneModule.
Proof.
  apply (single_module_first_in_preorder oneModule).
  vm_compute. lia.
Defined.

End Search.

(** ** The update recorder on one and on two insertions *)
Section Recorder.
Import Ts Host Schematic Spec.

Lemma append_empty_r (s : string) : s +:+ "" = s.
Proof.
  induction s as [|c s IH]; [reflexivity|].
  change (String c (s +:+ "") = String c s). now rewrite IH.
Qed.

Lemma append_empty_l (s : string) : "" +:+ s = s.
Proof. reflexivity. Qed.

Lemma substring_none (s : string) : substring 0 0 s = "".
Proof. now destruct s. Qed.

Lemma substring_whole (s : string) : substring 0 (String.length s) s = s.
Proof. induction s as [|c s IH]; simpl; [reflexivity|now rewrite IH]. Qed.

Lemma applyFrom_ext (es es' : list Edit) (content : string) :
  forall j,
    (forall i, j <= i -> leftAt i es = leftAt i es'
                         /\ rightAt i es = rightAt i es') ->
    applyFrom j es content = applyFrom j es' content.
Proof.
  induction content as [|c rest IH]; intros j Hsame; simpl;
    destruct (Hsame j (le_n j)) as [-> ->]; [reflexivity|].
  rewrite (IH (S j)); [reflexivity|]. intros i Hi. apply Hsame. lia.
Qed.

Lemma applyFrom_nil (content : string) (j : nat) :
  applyFrom j [] content = content.
Proof.
  revert j. induction content as [|c rest IH]; intros j; simpl;
    [reflexivity|now rewrite IH].
Qed.

(** Insertions at offsets already passed insert nothing. *)
Lemma applyFrom_passed (es : list Edit) (content : string) (j : nat) :
  (forall i, j <= i -> leftAt i es = "" /\ rightAt i es = "") ->
  applyFrom j es content = content.
Proof.
  intros Hdead. rewrite (applyFrom_ext es [] content j); [apply applyFrom_nil|].
  exact Hdead.
Qed.

Lemma applyFrom_left (p : nat) (s : string) :
  forall k content j,
    p = j + k -> k <= String.length content ->
    applyFrom j [InsertLeft p s] content
    = substring 0 k content +:+ s
      +:+ substring k (String.length content - k) content.
Proof.
  induction k as [|k IH]; intros content j Hp Hlen.
  - assert (Hj : Nat.eqb p j = true) by (apply Nat.eqb_eq; lia).
    rewrite Nat.sub_0_r, substring_whole.
    assert (Hrest : forall rest, applyFrom (S j) [InsertLeft p s] rest = rest).
    { intros rest. apply applyFrom_passed. intros i Hi. simpl.
      assert (Hne : Nat.eqb p i = false) by (apply Nat.eqb_neq; lia).
      now rewrite Hne. }
    destruct content as [|c rest]; simpl; rewrite Hj; simpl; rewrite ?Hrest;
      repeat (rewrite append_empty_l || rewrite append_empty_r); reflexivity.
  - destruct content as [|c rest]; simpl in Hlen; [lia|].
    assert (Hne : Nat.eqb p j = false) by (apply Nat.eqb_neq; lia).
    simpl. rewrite Hne. simpl. rewrite (IH rest (S j)) by lia.
    repeat (rewrite append_empty_l || rewrite append_empty_r). reflexivity.
Qed.

Lemma applyFrom_right (q : nat) (t : string) :
  forall k content j,
    q = j + k -> k <= String.length content ->
    applyFrom j [InsertRight q t] content
    = substring 0 k content +:+ t
      +:+ substring k (String.length content - k) content.
Proof.
  induction k as [|k IH]; intros content j Hq Hlen.
  - assert (Hj : Nat.eqb q j = true) by (apply Nat.eqb_eq; lia).
    rewrite Nat.sub_0_r, substring_whole.
    assert (Hrest : forall rest, applyFrom (S j) [InsertRight q t] rest = rest).
    { intros rest. apply applyFrom_passed. intros i Hi. simpl.
      assert (Hne : Nat.eqb q i = false) by (apply Nat.eqb_neq; lia).
      now rewrite Hne. }
    destruct content as [|c rest]; simpl; rewrite Hj; simpl; rewrite ?Hrest;
      repeat (rewrite append_empty_l || rewrite append_empty_r); reflexivity.
  - destruct content as [|c rest]; simpl in Hlen; [lia|].
    assert (Hne : Nat.eqb q j = false) by (apply Nat.eqb_neq; lia).
    simpl. rewrite Hne. simpl. rewrite (IH rest (S j)) by lia.
    repeat (rewrite append_empty_l || rewrite append_empty_r). reflexivity.
Qed.

Lemma applyFrom_left_right (p q : nat) (s t : string) :
  forall k content j m,
    p = j + k -> q = p + m -> k + m <= String.length content ->
    applyFrom j [InsertLeft p s; InsertRight q t] content
    = substring 0 k content +:+ s +:+ substring k m content +:+ t
      +:+ substring (k + m) (String.length content - (k + m)) content.
Proof.
  induction k as [|k IH]; intros content j m Hp Hq Hlen.
  - assert (Hj : Nat.eqb p j = true) by (apply Nat.eqb_eq; lia).
    assert (Hright : forall rest,
               applyFrom (S j) [InsertLeft p s; InsertRight q t] rest
               = applyFrom (S j) [InsertRight q t] rest).
    { intros rest. apply applyFrom_ext. intros i Hi. simpl.
      assert (Hne : Nat.eqb p i = false) by (apply Nat.eqb_neq; lia).
      now rewrite Hne. }
    destruct m as [|m].
    + assert (Hqj : Nat.eqb q j = true) by (apply Nat.eqb_eq; lia).
      assert (Hrest : forall rest, applyFrom (S j) [InsertRight q t] rest = rest).
      { intros rest. apply applyFrom_passed. intros i Hi. simpl.
        assert (Hne : Nat.eqb q i = false) by (apply Nat.eqb_neq; lia).
        now rewrite Hne. }
      simpl plus. rewrite Nat.sub_0_r, substring_whole.
      destruct content as [|c rest]; simpl; rewrite Hj, Hqj; simpl;
        rewrite ?Hright, ?Hrest;
        repeat (rewrite append_empty_l || rewrite append_empty_r); reflexivity.
    + destruct content as [|c rest]; simpl in Hlen; [lia|].
      assert (Hqj : Nat.eqb q j = false) by (apply Nat.eqb_neq; lia).
      simpl. rewrite Hj, Hqj. simpl. rewrite Hright.
      rewrite (applyFrom_right q t m rest (S j)) by lia.
      repeat (rewrite append_empty_l || rewrite append_empty_r). reflexivity.
  - destruct content as [|c rest]; simpl in Hlen; [lia|].
    assert (Hpj : Nat.eqb p j = false) by (apply Nat.eqb_neq; lia).
    assert (Hqj : Nat.eqb q j = false) by (apply Nat.eqb_neq; lia).
    simpl. rewrite Hpj, Hqj. simpl.
    rewrite (IH rest (S j) m) by lia.
    repeat (rewrite append_empty_l || rewrite append_empty_r). reflexivity.
Qed.

End Recorder.

(** ** The planned insertions, for any parse *)
Section Plans.
Import Ts Host Schematic Spec Samples Coverage.
Local Open Scope list_scope.

Variable sourceFile : SourceFile.
Variable options : Options.

Lemma lastOf_nil (nodes : list Node) : lastOf nodes = None -> nodes = [].
Proof.
  intros Hlast. destruct nodes as [|n rest]; [reflexivity|].
  destruct (lastOf_cons_inv (n :: rest)) as (init & x & _ & Hsome);
    [discriminate|congruence].
Qed.

Lemma findImportsArray_throw (decorator : Node) (e : Exception) :
  findImportsArray decorator = Throw e -> e = TypeError.
Proof.
  unfold findImportsArray. intros H.
  repeat match type of H with
         | match ?x with _ => _ end = _ => destruct x
         end; congruence.
Qed.

Lemma findImportsArray_throw_iff (decorator : Node) :
  isNgModuleDecorator decorator = true ->
  (findImportsArray decorator = Throw TypeError
   <-> CalledWithoutArguments decorator).
Proof.
  intros Hng.
  destruct decorator as [| | | | |dsp e| | | |]; try discriminate.
  destruct e as [|csp callee tas args| | | | | | | |]; try discriminate.
  split.
  - intros H. destruct args as [|argument rest].
    + exists dsp, csp, callee, tas. reflexivity.
    + simpl in H.
      repeat match type of H with
             | match ?x with _ => _ end = _ => destruct x
             end; discriminate.
  - intros (dsp' & csp' & callee' & tas' & [= -> -> -> -> ->]). reflexivity.
Qed.

Lemma entryEdits_throw_iff (importsArray : option Node) (e : Exception) :
  entryEdits sourceFile options importsArray = Throw e
  <-> e = TypeError
      /\ exists sp, importsArray = Some (ArrayLiteralExpression sp []).
Proof.
  unfold entryEdits. split.
  - intros H. destruct importsArray as [[| | | |sp elements| | | | |]|];
      try discriminate.
    destruct (existsb _ elements); [discriminate|].
    destruct (lastOf elements) eqn:Hlast; [discriminate|].
    apply lastOf_nil in Hlast. subst elements.
    split; [congruence|eauto].
  - intros (-> & sp & ->). reflexivity.
Qed.

Lemma entryEdits_not_array (importsArray : option Node) :
  isArrayLiteral importsArray = false ->
  entryEdits sourceFile options importsArray = Ok [].
Proof.
  unfold entryEdits, isArrayLiteral.
  destruct importsArray as [[]|]; try reflexivity; discriminate.
Qed.

Lemma arrayEdits_shape :
  match arrayEdits sourceFile options with
  | Ok es => es = [] \/ exists i, es = [InsertRight i (arrayEntry options)]
  | Throw e => e = TypeError
  end.
Proof.
  unfold arrayEdits.
  destruct (findNgModuleDecorator sourceFile) as [d|]; [|now left].
  destruct (findImportsArray d) as [v|e] eqn:Hfind;
    [|now apply findImportsArray_throw in Hfind].
  destruct (entryEdits sourceFile options v) as [es|e] eqn:Hentry.
  - unfold entryEdits in Hentry.
    destruct v as [[| | | |sp elements| | | | |]|];
      try (injection Hentry as <-; now left).
    destruct (existsb _ elements); [injection Hentry as <-; now left|].
    destruct (lastOf elements); [|discriminate].
    injection Hentry as <-. right. eauto.
  - now apply entryEdits_throw_iff in Hentry.
Qed.

Lemma importEdits_shape :
  importEdits sourceFile options = []
  \/ exists i, importEdits sourceFile options
               = [InsertLeft i (importStatement options)].
Proof.
  unfold importEdits. destruct (alreadyImported _ _); [now left|right; eauto].
Qed.

Lemma no_import_not_imported :
  (forall st, In st (statements sourceFile) -> isImportDeclaration st = false) ->
  alreadyImported sourceFile options = false.
Proof.
  intros Hnone. unfold alreadyImported.
  apply not_true_is_false. intros H.
  apply existsb_exists in H as (st & Hin & Hm).
  specialize (Hnone st Hin). destruct st; discriminate.
Qed.

End Plans.

(** ** Outcomes, calls and committed text of a run *)
Section Outcomes.
Import Ts Host Schematic Spec Samples Coverage.
Local Open Scope list_scope.

Variable createSourceFile : string -> string -> SourceFile.
Variable options : Options.
Variable tree : gmap string string.

(** X5. On a file that can be read and has, at any depth, no class
    declaration with a decorator calling [NgModule], the run returns
    normally, makes no insertion to the right, and commits. *)
Theorem no_decorator_no_array_edit (sourceText : string) :
  tree !! module options = Some sourceText ->
  (forall node,
      In node (flat_map preorder
                 (statements (createSourceFile (module options) sourceText)))
      -> ngModuleDecoratorOf node = None) ->
  fst (importAndAddModule createSourceFile options (initial tree)) = Ok tt
  /\ rightInsertions
       (events (snd (importAndAddModule createSourceFile options
                       (initial tree)))) = []
  /\ In (EvCommitUpdate (module options))
        (events (snd (importAndAddModule createSourceFile options
                        (initial tree)))).
Proof.
  intros Hfile Hnone. apply none_without_carrier in Hnone.
  rewrite (run_rightInsertions _ _ _ _ Hfile).
  rewrite (run_existing _ _ _ _ Hfile). cbv zeta.
  unfold arrayEdits. rewrite Hnone. cbn [fst snd events].
  repeat split. rewrite !in_app_iff. right. right. now left.
Qed.

(** X7. On a file that can be read, the run ends with a [TypeError]
    exactly when a decorator is located and either its call has no
    argument or the value of its [imports] property is an array literal
    without elements. *)
Theorem type_error_iff (sourceText : string) :
  tree !! module options = Some sourceText ->
  (fst (importAndAddModule createSourceFile options (initial tree))
   = Throw TypeError
   <-> exists d,
         findNgModuleDecorator (createSourceFile (module options) sourceText)
         = Some d
         /\ (CalledWithoutArguments d
             \/ exists sp,
                  findImportsArray d
                  = Ok (Some (ArrayLiteralExpression sp [])))).
Proof.
  intros Hfile. rewrite (run_existing _ _ _ _ Hfile). cbv zeta.
  set (sf := createSourceFile (module options) sourceText).
  unfold arrayEdits.
  destruct (findNgModuleDecorator sf) as [d|] eqn:Hd.
  - pose proof (located_calls_NgModule sf d Hd) as Hng.
    pose proof (findImportsArray_throw_iff d Hng) as Hthrow.
    destruct (findImportsArray d) as [v|e] eqn:Hfind.
    + destruct (entryEdits sf options v) as [es|e] eqn:Hentry; cbn [fst].
      * split; [discriminate|].
        intros (d' & Heq & Hcase).
        assert (d' = d) by congruence. subst d'.
        destruct Hcase as [Hno|(sp & Hempty)].
        -- apply Hthrow in Hno. congruence.
        -- assert (v = Some (ArrayLiteralExpression sp [])) by congruence.
           subst v. discriminate.
      * apply entryEdits_throw_iff in Hentry as (-> & sp & ->).
        split; [|reflexivity]. intros _. exists d. split; [reflexivity|].
        right. eauto.
    + cbn [fst]. pose proof (findImportsArray_throw d e Hfind). subst e.
      split; [|reflexivity]. intros _. exists d. split; [reflexivity|].
      left. now apply Hthrow.
  - cbn [fst]. split; [discriminate|]. intros (d & Hsome & _). discriminate.
Qed.

(** X8. A run that ends with an exception leaves the tree as it was and
    has not called [commitUpdate]. *)
Theorem exception_leaves_tree_unchanged (e : Exception) :
  fst (importAndAddModule createSourceFile options (initial tree)) = Throw e ->
  files (snd (importAndAddModule createSourceFile options (initial tree)))
  = tree
  /\ ~ In (EvCommitUpdate (module options))
          (events (snd (importAndAddModule createSourceFile options
                          (initial tree)))).
Proof.
  destruct (tree !! module options) as [content|] eqn:Hfile.
  - rewrite (run_existing _ _ _ content Hfile). cbv zeta.
    destruct (arrayEdits _ _) as [es|e']; cbn [fst snd files events];
      [discriminate|].
    intros _. split; [reflexivity|].
    unfold prologue, importEdits. destruct (alreadyImported _ _); simpl;
      intros H; repeat (destruct H as [H|H]; [discriminate|]); exact H.
  - rewrite (run_missing _ _ _ Hfile). cbn [fst snd files events].
    intros _. split; [reflexivity|]. intros [H|[]]. discriminate.
Qed.

(** X9. A run does not touch any file but the one of the options. *)
Theorem other_files_untouched (p : string) :
  p <> module options ->
  files (snd (importAndAddModule createSourceFile options (initial tree))) !! p
  = tree !! p.
Proof.
  intros Hother.
  destruct (tree !! module options) as [content|] eqn:Hfile.
  - rewrite (run_existing _ _ _ content Hfile). cbv zeta.
    destruct (arrayEdits _ _) as [es|e]; cbn [snd files]; [|reflexivity].
    now rewrite lookup_insert_ne.
  - now rewrite (run_missing _ _ _ Hfile).
Qed.

(** X10. On a file that can be read the calls are, in this order:
    [read], [createSourceFile], [beginUpdate], at most one [insertLeft]
    of the import statement, at most one [insertRight] of the array
    entry, and [commitUpdate] when the run returns normally; when it
    ends with a [TypeError], no [insertRight] and no [commitUpdate] were
    made. *)
Theorem call_sequence (sourceText : string) :
  tree !! module options = Some sourceText ->
  exists ls rs tail,
    events (snd (importAndAddModule createSourceFile options (initial tree)))
    = [EvRead (module options);
       EvCreateSourceFile (module options) sourceText;
       EvBeginUpdate (module options)] ++ ls ++ rs ++ tail
    /\ (ls = [] \/ exists i, ls = [EvInsertLeft i (importStatement options)])
    /\ (rs = [] \/ exists i, rs = [EvInsertRight i (arrayEntry options)])
    /\ ((fst (importAndAddModule createSourceFile options (initial tree))
         = Ok tt /\ tail = [EvCommitUpdate (module options)])
        \/ (fst (importAndAddModule createSourceFile options (initial tree))
            = Throw TypeError /\ rs = [] /\ tail = [])).
Proof.
  intros Hfile. rewrite (run_existing _ _ _ _ Hfile). cbv zeta.
  set (sf := createSourceFile (module options) sourceText).
  pose proof (arrayEdits_shape sf options) as Hshape.
  pose proof (importEdits_shape sf options) as Hleft.
  exists (map eventOf (importEdits sf options)).
  destruct (arrayEdits sf options) as [es|e]; cbn [fst snd events].
  - exists (map eventOf es), [EvCommitUpdate (module options)].
    split; [unfold prologue; now rewrite <- !app_assoc|].
    split; [destruct Hleft as [->|[i ->]]; [now left|right; eauto]|].
    split; [destruct Hshape as [->|[i ->]]; [now left|right; eauto]|].
    now left.
  - subst e. exists [], [].
    split; [unfold prologue; now rewrite !app_nil_r|].
    split; [destruct Hleft as [->|[i ->]]; [now left|right; eauto]|].
    split; [now left|]. now right.
Qed.

(** X12. On a file that can be read, when a decorator is located and
    what [findImportsArray] returns is nothing or is no array literal,
    the run returns normally and makes no insertion to the right. *)
Theorem non_array_imports_skipped (sourceText : string) (d : Node)
  (importsArray : option Node) :
  tree !! module options = Some sourceText ->
  findNgModuleDecorator (createSourceFile (module options) sourceText)
  = Some d ->
  findImportsArray d = Ok importsArray ->
  isArrayLiteral importsArray = false ->
  fst (importAndAddModule createSourceFile options (initial tree)) = Ok tt
  /\ rightInsertions
       (events (snd (importAndAddModule createSourceFile options
                       (initial tree)))) = [].
Proof.
  intros Hfile Hd Hfind Hnot.
  rewrite (run_rightInsertions _ _ _ _ Hfile).
  rewrite (run_existing _ _ _ _ Hfile). cbv zeta.
  rewrite (arrayEdits_located _ _ _ _ _ Hd Hfind).
  rewrite (entryEdits_not_array _ _ _ Hnot). now split.
Qed.

(** X13. On a file that can be read, has no top-level import declaration
    and no located decorator, the committed text is the import statement
    followed by the text that was read. *)
Theorem import_prepended_without_imports (sourceText : string) :
  tree !! module options = Some sourceText ->
  (forall st,
      In st (statements (createSourceFile (module options) sourceText))
      -> isImportDeclaration st = false) ->
  findNgModuleDecorator (createSourceFile (module options) sourceText) = None ->
  files (snd (importAndAddModule createSourceFile options (initial tree)))
    !! module options
  = Some (importStatement options +:+ sourceText).
Proof.
  intros Hfile Hnone Hd. rewrite (run_existing _ _ _ _ Hfile). cbv zeta.
  unfold arrayEdits. rewrite Hd. cbn [snd files].
  rewrite lookup_insert_eq. f_equal.
  unfold importEdits.
  rewrite (no_import_not_imported _ options Hnone),
    (lastImportEnd_none _ Hnone).
  unfold apply. simpl app.
  rewrite (applyFrom_left 0 (importStatement options) 0 sourceText 0)
    by (simpl; lia).
  now rewrite Nat.sub_0_r, substring_whole, substring_none.
Qed.

(** X14. On a file that can be read, without matching import and
    without located decorator, the committed text is the text that was
    read with the import statement put in at the end of the last
    top-level import declaration. *)
Theorem import_spliced_after_last_import (sourceText : string)
  (pre post : list Node) (imp : Node) :
  tree !! module options = Some sourceText ->
  alreadyImported (createSourceFile (module options) sourceText) options
  = false ->
  findNgModuleDecorator (createSourceFile (module options) sourceText) = None ->
  statements (createSourceFile (module options) sourceText)
  = pre ++ imp :: post ->
  isImportDeclaration imp = true ->
  (forall st, In st post -> isImportDeclaration st = false) ->
  getEnd (span imp) <= String.length sourceText ->
  files (snd (importAndAddModule createSourceFile options (initial tree)))
    !! module options
  = Some (substring 0 (getEnd (span imp)) sourceText
          +:+ importStatement options
          +:+ substring (getEnd (span imp))
                (String.length sourceText - getEnd (span imp)) sourceText).
Proof.
  intros Hfile Hnot Hd Hst Himp Hpost Hlen.
  rewrite (run_existing _ _ _ _ Hfile). cbv zeta.
  unfold arrayEdits. rewrite Hd. cbn [snd files].
  rewrite lookup_insert_eq. f_equal.
  unfold importEdits. rewrite Hnot, (lastImportEnd_last _ _ _ _ Hst Himp Hpost).
  unfold apply. simpl app.
  now rewrite (applyFrom_left _ _ (getEnd (span imp)) sourceText 0) by lia.
Qed.

(** X15. On a file that can be read, without matching import, whose
    located [imports] array has no element reading [import] and ends
    with [lastEl] at or after the end of the last top-level import
    declaration, the run returns normally and the committed text is the
    text that was read with the import statement put in at the end of
    that import and the array entry put in at the end of [lastEl]. *)
Theorem both_insertions_text (sourceText : string)
  (pre post init : list Node) (imp lastEl d : Node) (asp : Span) :
  tree !! module options = Some sourceText ->
  alreadyImported (createSourceFile (module options) sourceText) options
  = false ->
  statements (createSourceFile (module options) sourceText)
  = pre ++ imp :: post ->
  isImportDeclaration imp = true ->
  (forall st, In st post -> isImportDeclaration st = false) ->
  findNgModuleDecorator (createSourceFile (module options) sourceText)
  = Some d ->
  findImportsArray d
  = Ok (Some (ArrayLiteralExpression asp (init ++ [lastEl]))) ->
  (forall el, In el (init ++ [lastEl])
              -> getText el (createSourceFile (module options) sourceText)
                 <> import options) ->
  getEnd (span imp) <= getEnd (span lastEl) ->
  getEnd (span lastEl) <= String.length sourceText ->
  fst (importAndAddModule createSourceFile options (initial tree)) = Ok tt
  /\ files (snd (importAndAddModule createSourceFile options (initial tree)))
       !! module options
     = Some (substring 0 (getEnd (span imp)) sourceText
             +:+ importStatement options
             +:+ substring (getEnd (span imp))
                   (getEnd (span lastEl) - getEnd (span imp)) sourceText
             +:+ arrayEntry options
             +:+ substring (getEnd (span lastEl))
                   (String.length sourceText - getEnd (span lastEl))
                   sourceText).
Proof.
  intros Hfile Hnot Hst Himp Hpost Hd Hfind Hnew Hle Hlen.
  rewrite (run_existing _ _ _ _ Hfile). cbv zeta.
  rewrite (arrayEdits_located _ _ _ _ _ Hd Hfind).
  unfold entryEdits.
  assert (Hex : existsb
                  (fun el =>
                     String.eqb
                       (getText el
                          (createSourceFile (module options) sourceText))
                       (import options))
                  (init ++ [lastEl]) = false).
  { apply not_true_is_false. intros H.
    apply existsb_exists in H as (el & Hin & Heq).
    apply String.eqb_eq in Heq. exact (Hnew el Hin Heq). }
  rewrite Hex, lastOf_snoc. cbn [fst snd files]. split; [reflexivity|].
  rewrite lookup_insert_eq. f_equal.
  unfold importEdits. rewrite Hnot, (lastImportEnd_last _ _ _ _ Hst Himp Hpost).
  unfold apply. simpl app.
  rewrite (applyFrom_left_right _ _ _ _ (getEnd (span imp)) sourceText 0
             (getEnd (span lastEl) - getEnd (span imp))) by lia.
  replace (getEnd (span imp) + (getEnd (span lastEl) - getEnd (span imp)))
    with (getEnd (span lastEl)) by lia.
  reflexivity.
Qed.

End Outcomes.

(** ** The look-up of the [imports] property *)
Section Lookup.
Import Ts Host Schematic Spec Samples Coverage.
Local Open Scope list_scope.

(** X11. [findImportsArray] looks at the first argument of the call only;
    when that is an object literal, it returns the initializer of the
    first property assignment whose name is the identifier [imports],
    whatever properties and arguments come after it. *)
Theorem findImportsArray_first_imports_property
  (dsp csp osp psp isp : Span) (callee initializer : Node)
  (typeArguments otherArguments pre post pmods : list Node) :
  (forall q, In q pre -> isImportsProperty q = false) ->
  findImportsArray
    (Decorator dsp
       (CallExpression csp callee typeArguments
          (ObjectLiteralExpression osp
             (pre ++ PropertyAssignment psp pmods (Identifier isp "imports")
                       initializer :: post)
           :: otherArguments)))
  = Ok (Some initializer).
Proof.
  intros Hpre. simpl.
  now rewrite (find_filter_first isImportsProperty isPropertyAssignment
                 pre post
                 (PropertyAssignment psp pmods (Identifier isp "imports")
                    initializer)
                 eq_refl eq_refl Hpre).
Qed.

End Lookup.

(** ** The further statements on the concrete files *)
Section Instances.
Import Ts Host Schematic Spec Samples Coverage.
Local Open Scope list_scope.

Lemma no_decorator_no_array_edit_witness :
  fst (runOn importOnly importB) = Ok tt
  /\ rightInsertions (events (snd (runOn importOnly importB))) = []
  /\ In (EvCommitUpdate "app.module.ts")
        (events (snd (runOn importOnly importB))).
Proof.
  apply (no_decorator_no_array_edit (parserOf importOnly) importB
           (treeOf importOnly) importOnly_text).
  - reflexivity.
  - intros node Hin. cbv in Hin.
    repeat (destruct Hin as [<-|Hin]; [reflexivity|]). destruct Hin.
Defined.

Lemma type_error_iff_witness :
  fst (runOn emptyImports importB) = Throw TypeError
  <-> exists d,
        findNgModuleDecorator emptyImports = Some d
        /\ (CalledWithoutArguments d
            \/ exists sp,
                 findImportsArray d
                 = Ok (Some (ArrayLiteralExpression sp []))).
Proof.
  apply (type_error_iff (parserOf emptyImports) importB (treeOf emptyImports)
           emptyImports_text).
  reflexivity.
Defined.

Lemma exception_leaves_tree_unchanged_witness :
  files (snd (runOn noArguments importB)) = treeOf noArguments
  /\ ~ In (EvCommitUpdate "app.module.ts")
          (events (snd (runOn noArguments importB))).
Proof.
  apply (exception_leaves_tree_unchanged (parserOf noArguments) importB
           (treeOf noArguments) TypeError).
  reflexivity.
Defined.

Lemma other_files_untouched_witness :
  files (snd (importAndAddModule (parserOf oneModule) importB
                (initial (twoFiles oneModule)))) !! "other.ts"
  = twoFiles oneModule !! "other.ts".
Proof.
  apply (other_files_untouched (parserOf oneModule) importB
           (twoFiles oneModule) "other.ts").
  discriminate.
Defined.

Lemma call_sequence_witness :
  exists ls rs tail,
    events (snd (runOn oneModule importB))
    = [EvRead "app.module.ts";
       EvCreateSourceFile "app.module.ts" oneModule_text;
       EvBeginUpdate "app.module.ts"] ++ ls ++ rs ++ tail
    /\ (ls = [] \/ exists i, ls = [EvInsertLeft i (importStatement importB)])
    /\ (rs = [] \/ exists i, rs = [EvInsertRight i (arrayEntry importB)])
    /\ ((fst (runOn oneModule importB) = Ok tt
         /\ tail = [EvCommitUpdate "app.module.ts"])
        \/ (fst (runOn oneModule importB) = Throw TypeError
            /\ rs = [] /\ tail = [])).
Proof.
  apply (call_sequence (parserOf oneModule) importB (treeOf oneModule)
           oneModule_text).
  reflexivity.
Defined.

Lemma findImportsArray_first_imports_property_witness :
  findImportsArray twoArguments_decorator = Ok (Some importsInitializer).
Proof.
  apply (findImportsArray_first_imports_property
           (sp 0 53) (sp 1 53) (sp 10 45) (sp 31 43) (sp 31 38)
           (Identifier (sp 1 9) "NgModule") importsInitializer
           [] [Identifier (sp 47 52) "extra"] [declarationsProperty] [] []).
  intros q [<-|[]]. reflexivity.
Defined.

Lemma non_array_imports_skipped_witness :
  fst (runOn referenceImports importB) = Ok tt
  /\ rightInsertions (events (snd (runOn referenceImports importB))) = [].
Proof.
  apply (non_array_imports_skipped (parserOf referenceImports) importB
           (treeOf referenceImports) referenceImports_text
           referenceImports_decorator
           (Some (Identifier (sp 21 28) "MODULES")));
    reflexivity.
Defined.

Lemma import_prepended_without_imports_witness :
  files (snd (runOn plainClass importB)) !! "app.module.ts"
  = Some (importStatement importB +:+ "export class M {}").
Proof.
  apply (import_prepended_without_imports (parserOf plainClass) importB
           (treeOf plainClass) plainClass_text).
  - reflexivity.
  - intros st [<-|[]]. reflexivity.
  - reflexivity.
Defined.

Lemma import_spliced_after_last_import_witness :
  files (snd (runOn importOnly importB)) !! "app.module.ts"
  = Some (substring 0 22 importOnly_text
          +:+ importStatement importB
          +:+ substring 22 (String.length importOnly_text - 22)
                importOnly_text).
Proof.
  apply (import_spliced_after_last_import (parserOf importOnly) importB
           (treeOf importOnly) importOnly_text [] [importOnly_class]
           importOnly_import).
  - reflexivity.
  - reflexivity.
  - reflexivity.
  - reflexivity.
  - reflexivity.
  - intros st [<-|[]]. reflexivity.
  - vm_compute. lia.
Defined.

Lemma both_insertions_text_witness :
  fst (runOn oneModule importB) = Ok tt
  /\ files (snd (runOn oneModule importB)) !! "app.module.ts"
     = Some (substring 0 22 oneModule_text
             +:+ importStatement importB
             +:+ substring 22 (47 - 22) oneModule_text
             +:+ arrayEntry importB
             +:+ substring 47 (String.length oneModule_text - 47)
                   oneModule_text).
Proof.
  apply (both_insertions_text (parserOf oneModule) importB (treeOf oneModule)
           oneModule_text []
           [classDecl (sp 24 62) [oneModule_decorator] (sp 58 59) "M"] []
           (namedImport (sp 0 22) (sp 7 12) [importSpecifier (sp 9 10) "A"]
              (sp 18 21))
           (Identifier (sp 46 47) "A") oneModule_decorator (sp 45 48)).
  - reflexivity.
  - reflexivity.
  - reflexivity.
  - reflexivity.
  - intros st [<-|[]]. reflexivity.
  - reflexivity.
  - reflexivity.
  - intros el [<-|[]] H. vm_compute in H. discriminate.
  - vm_compute. lia.
  - vm_compute. lia.
Defined.

(** The committed texts of the last two, written out. *)
Example import_spliced_text :
  files (snd (runOn importOnly importB)) !! "app.module.ts"
  = Some ("import { A } from 'a';" +:+ nl +:+
          "import { B } from 'b';" +:+ nl +:+ nl +:+
          "export class M {}").
Proof. vm_compute. reflexivity. Qed.

End Instances.
